(** * upload-to-microcms: a shallow embedding of [scripts/upload-to-microcms.js]

    The script walks a directory, collects the PNG files and posts each one
    to the microCMS media endpoint.  The embedding below follows the source
    statement by statement: JavaScript strings are sequences of UTF-16 code
    units, Buffers are sequences of bytes, and the effects of the script
    (console output, file system calls, the clock, the network, process
    exit) are threaded through a small state-and-exception monad whose state
    carries the log of everything the script did and was answered. *)

From Stdlib Require Import Strings.String Strings.Ascii Strings.Byte DecimalString.
From Stdlib Require Import DecimalZ.
From Stdlib Require Import List NArith ZArith Bool Lia.
Import ListNotations.

Set Warnings "-register-all".

Local Open Scope N_scope.
Local Open Scope list_scope.

(** ** JavaScript strings *)

(** A JavaScript string is a sequence of 16-bit code units. *)
Definition jsstring := list N.

(** ASCII literals of the source. *)
Definition js (s : string) : jsstring := map N_of_ascii (list_ascii_of_string s).

Definition QUOTE : N := 34.
Definition DOT : N := 46.
Definition SLASH : N := 47.
Definition CRLF : jsstring := [13; 10].
Definition LF : jsstring := [10].
(** The two dingbats of the progress lines, U+2713 and U+2717. *)
Definition CHECK_MARK : jsstring := [10003].
Definition BALLOT_X : jsstring := [10007].

Fixpoint str_eqb (a b : jsstring) : bool :=
  match a, b with
  | [], [] => true
  | x :: a', y :: b' => (x =? y) && str_eqb a' b'
  | _, _ => false
  end.

(** [String.prototype.toLowerCase], on the ASCII range.  Outside ASCII the
    code units are kept: no character outside ASCII lowercases to one of
    the letters the script compares against ([.], [p], [n], [g], [j], [e]),
    so the tests of lines 21 and 79 do not depend on the rest of the
    Unicode case tables.  The lowered string itself is the platform's for
    a string of ASCII characters only ([ascii_only] below); the script shows a
    lowered string in one place, the message of line 30. *)
Definition lower_unit (c : N) : N :=
  if (65 <=? c) && (c <=? 90) then c + 32 else c.

Definition toLowerCase (s : jsstring) : jsstring := map lower_unit s.

(** A string of ASCII characters. *)
Definition ascii_only (s : jsstring) : Prop := Forall (fun c => c < 128) s.

(** [String.prototype.endsWith]. *)
Definition endsWith (s suffix : jsstring) : bool :=
  (length suffix <=? length s)%nat &&
  str_eqb (skipn (length s - length suffix) s) suffix.

(** [Array.prototype.join]. *)
Fixpoint join (sep : jsstring) (parts : list jsstring) : jsstring :=
  match parts with
  | [] => []
  | [p] => p
  | p :: rest => p ++ sep ++ join sep rest
  end.

(** Number-to-string conversion of the integers the script prints. *)
Definition dec_N (n : N) : jsstring := js (NilEmpty.string_of_uint (N.to_uint n)).
Definition dec_nat (n : nat) : jsstring := dec_N (N.of_nat n).
Definition dec_Z (z : Z) : jsstring := js (NilEmpty.string_of_int (Z.to_int z)).

(** [sub] occurs in [s]. *)
Definition contains (sub s : jsstring) : Prop :=
  exists pre post, s = pre ++ sub ++ post.

(** ** Buffers and the binary (latin1) encoding *)

Definition Buffer := list byte.

(** [buf.toString('binary')]: one code unit per byte, of the same value. *)
Definition Buffer_toString_binary (b : Buffer) : jsstring := map Byte.to_N b.

(** The byte a code unit is written as: its low eight bits. *)
Definition low_byte (c : N) : byte :=
  match Byte.of_N (N.land c 255) with
  | Some b => b
  | None => x00
  end.

(** [Buffer.from(s, 'binary')]. *)
Definition Buffer_from_binary (s : jsstring) : Buffer := map low_byte s.

(** [Buffer.byteLength(s, 'binary')]: the number of code units. *)
Definition Buffer_byteLength_binary (s : jsstring) : nat := length s.

(** ** Node's [path] module (POSIX flavour), by its documented behaviour *)

Module Path.

Definition is_sep (c : N) : bool := c =? SLASH.

Fixpoint dropWhile {A} (p : A -> bool) (l : list A) : list A :=
  match l with
  | [] => []
  | x :: r => if p x then dropWhile p r else l
  end.

Fixpoint takeWhile {A} (p : A -> bool) (l : list A) : list A :=
  match l with
  | [] => []
  | x :: r => if p x then x :: takeWhile p r else []
  end.

(** The last component of a path, read from the right: trailing
    separators are skipped, then everything up to the next separator is
    taken.  The component is returned reversed. *)
Definition last_component_rev (p : jsstring) : jsstring :=
  takeWhile (fun c => negb (is_sep c)) (dropWhile is_sep (rev p)).

(** [path.basename(p)]. *)
Definition basename (p : jsstring) : jsstring := rev (last_component_rev p).

(** [path.extname(p)]: from the last dot of the last component to its
    end; empty when there is no dot, when the dot is the first character
    of the component, or when the component is [..]. *)
Definition extname (p : jsstring) : jsstring :=
  let rc := last_component_rev p in
  let after := takeWhile (fun c => negb (c =? DOT)) rc in
  match dropWhile (fun c => negb (c =? DOT)) rc with
  | [] => []
  | _dot :: before =>
      match before with
      | [] => []
      | _ =>
          if str_eqb before [DOT] && str_eqb after [] then []
          else DOT :: rev after
      end
  end.

(** Splitting at separators. *)
Fixpoint split (s : jsstring) : list jsstring :=
  match s with
  | [] => [[]]
  | c :: r =>
      if is_sep c then [] :: split r
      else match split r with
           | [] => [[c]]
           | seg :: segs => (c :: seg) :: segs
           end
  end.

(** One segment of [normalizeString]; the stack holds the segments kept
    so far, the last one first. *)
Definition norm_step (allowAboveRoot : bool) (stack : list jsstring)
    (seg : jsstring) : list jsstring :=
  if str_eqb seg [] || str_eqb seg [DOT] then stack
  else if str_eqb seg [DOT; DOT] then
    match stack with
    | top :: below =>
        if str_eqb top [DOT; DOT]
        then (if allowAboveRoot then seg :: stack else stack)
        else below
    | [] => if allowAboveRoot then [seg] else []
    end
  else seg :: stack.

Definition normalizeString (p : jsstring) (allowAboveRoot : bool) : jsstring :=
  join [SLASH] (rev (fold_left (norm_step allowAboveRoot) (split p) [])).

(** [path.normalize(p)]. *)
Definition normalize (p : jsstring) : jsstring :=
  match p with
  | [] => [DOT]
  | first :: _ =>
      let isAbsolute := is_sep first in
      let trailingSeparator := is_sep (last p 0) in
      let body := normalizeString p (negb isAbsolute) in
      match body with
      | [] => if isAbsolute then [SLASH]
              else if trailingSeparator then [DOT; SLASH] else [DOT]
      | _ => (if isAbsolute then [SLASH] else [])
             ++ body ++ (if trailingSeparator then [SLASH] else [])
      end
  end.

(** [path.join(...args)]: the non-empty arguments, separated by [/],
    normalized. *)
Definition join (args : list jsstring) : jsstring :=
  match filter (fun a => negb (str_eqb a [])) args with
  | [] => [DOT]
  | parts => normalize (join [SLASH] parts)
  end.

End Path.

(** ** JavaScript values and errors *)

(** An [Error] object, as far as the script looks at it. *)
Record exn := Error { message : jsstring }.

(** The result of a call of the platform that may throw. *)
Inductive res (A : Type) :=
| Ok (a : A)
| Err (e : exn).
Arguments Ok {A} a.
Arguments Err {A} e.

(** The values [JSON.parse] produces, and [undefined].  A number is held by
    its rendering: the script only ever prints it. *)
Inductive jsval :=
| JUndefined
| JNull
| JBool (b : bool)
| JNum (rendering : jsstring)
| JStr (s : jsstring)
| JArr (items : list jsval)
| JObj (props : list (jsstring * jsval)).

Fixpoint own_property (props : list (jsstring * jsval)) (key : jsstring)
  : option jsval :=
  match props with
  | [] => None
  | (k, v) :: rest => if str_eqb k key then Some v else own_property rest key
  end.

(** [result.url]: reading a property of [null] or [undefined] throws, any
    other value that has no such property answers [undefined]. *)
Definition get_url (result : jsval) : res jsval :=
  match result with
  | JNull => Err (Error (js "Cannot read properties of null (reading 'url')"))
  | JUndefined =>
      Err (Error (js "Cannot read properties of undefined (reading 'url')"))
  | JObj props =>
      match own_property props (js "url") with
      | Some v => Ok v
      | None => Ok JUndefined
      end
  | _ => Ok JUndefined
  end.

(** The string conversion a template literal applies to [${value}].
    A parsed object has no callable property of its own, so one that has an
    own property [toString] hides [Object.prototype.toString], the inherited
    [valueOf] answers the object itself, and the conversion throws.  An
    Array is converted as by [join(',')], which skips [null] and
    [undefined] and converts the other items in turn. *)
Fixpoint ToString (v : jsval) : res jsstring :=
  match v with
  | JUndefined => Ok (js "undefined")
  | JNull => Ok (js "null")
  | JBool true => Ok (js "true")
  | JBool false => Ok (js "false")
  | JNum r => Ok r
  | JStr s => Ok s
  | JArr items =>
      (fix items_to_string (l : list jsval) : res jsstring :=
         match l with
         | [] => Ok []
         | x :: rest =>
             match (match x with
                    | JUndefined | JNull => Ok []
                    | _ => ToString x
                    end) with
             | Err e => Err e
             | Ok sx =>
                 match rest with
                 | [] => Ok sx
                 | _ => match items_to_string rest with
                        | Err e => Err e
                        | Ok sr => Ok (sx ++ js "," ++ sr)
                        end
                 end
             end
         end) items
  | JObj props =>
      match own_property props (js "toString") with
      | Some _ => Err (Error (js "Cannot convert object to primitive value"))
      | None => Ok (js "[object Object]")
      end
  end.

(** ** The world the script runs in *)

(** What a directory entry is: [Dirent.isFile()], [Dirent.isDirectory()],
    or neither (a symbolic link, a socket, ...).  A directory carries the
    error [readdir] fails with, if it cannot be listed, and its entries in
    listing order. *)
Inductive node :=
| File
| Other
| Dir (failure : option exn) (entries : list (jsstring * node)).

Record Headers := mkHeaders {
  X_MICROCMS_API_KEY : jsstring;
  Content_Type : jsstring;
  Content_Length : nat }.

Record Request := mkRequest {
  method : jsstring;
  headers : Headers;
  body : Buffer }.

(** A [Response]: [ok] is derived from the status as the Fetch standard
    has it; [text()] answers the body or rejects. *)
Record Response := mkResponse {
  status : N;
  statusText : jsstring;
  text : res jsstring }.

Definition ok (r : Response) : bool := (200 <=? status r) && (status r <=? 299).

Inductive console_method := Log | Warn | ErrorLevel.

(** Everything the script does to its environment, with the answer it
    got.  A console event is the call as the script makes it: the method
    and the arguments.  With one argument the line written is that
    argument; with more, the platform takes the first one as a format
    string ([util.format]), and what it writes is not modelled. *)
Inductive event :=
| EvConsole (m : console_method) (args : list jsstring)
| EvAccess (path : jsstring) (found : bool)
| EvReaddir (path : jsstring) (failure : option exn)
| EvReadFile (path : jsstring) (answer : res Buffer)
| EvNow (ms : Z)
| EvFetch (url : jsstring) (req : Request) (answer : res Response)
| EvExit (code : Z).

(** The environment.  The file system is a tree hanging at each path; the
    clock, the file contents and the network may answer differently each
    time, so they are given the log of what happened before. *)
Record World := mkWorld {
  env : jsstring -> option jsstring;
  lookup : jsstring -> option node;
  readFile : list event -> jsstring -> res Buffer;
  now : list event -> Z;
  fetch : list event -> jsstring -> Request -> res Response }.

(** The error of a file system call that fails, as Node words it: the
    code and its description, then the call and the path. *)
Definition fs_error (reason syscall path : jsstring) : exn :=
  Error (reason ++ js ", " ++ syscall ++ js " '" ++ path ++ js "'").

Definition ENOENT (syscall path : jsstring) : exn :=
  fs_error (js "ENOENT: no such file or directory") syscall path.
Definition ENOTDIR (syscall path : jsstring) : exn :=
  fs_error (js "ENOTDIR: not a directory") syscall path.

(** The node a scan of [path] starts at; a path that leads nowhere is a
    directory whose listing fails. *)
Definition nodeAt (w : World) (path : jsstring) : node :=
  match lookup w path with
  | Some n => n
  | None => Dir (Some (ENOENT (js "scandir") path)) []
  end.

(** ** Results of the batch *)

Inductive UploadResult :=
| Success (fileName relativePath : jsstring) (url : jsval)
| Failure (fileName relativePath : jsstring) (error : jsstring).

Definition success (r : UploadResult) : bool :=
  match r with
  | Success _ _ _ => true
  | Failure _ _ _ => false
  end.

(** ** The monad *)

(** The mutable store: the log, and the two arrays the script fills by
    [push] ([pngFiles] of line 68, [uploadResults] of line 102). *)
Record state := mkState {
  trace : list event;
  pngFiles : list jsstring;
  uploadResults : list UploadResult }.

(** A computation returns, throws, or ends the process.  Updates of the
    store survive a throw. *)
Inductive outcome (A : Type) :=
| Ret (a : A)
| Thrown (e : exn)
| Exited (code : Z).
Arguments Ret {A} a.
Arguments Thrown {A} e.
Arguments Exited {A} code.

Definition M (A : Type) := state -> outcome A * state.

Definition ret {A} (a : A) : M A := fun s => (Ret a, s).

Definition bind {A B} (m : M A) (k : A -> M B) : M B :=
  fun s => match m s with
           | (Ret a, s') => k a s'
           | (Thrown e, s') => (Thrown e, s')
           | (Exited c, s') => (Exited c, s')
           end.

Definition throw {A} (e : exn) : M A := fun s => (Thrown e, s).

(** [try { m } catch (error) { handler }]: a process that has exited is
    not caught. *)
Definition try_catch {A} (m : M A) (handler : exn -> M A) : M A :=
  fun s => match m s with
           | (Thrown e, s') => handler e s'
           | r => r
           end.

Declare Scope js_scope.
Delimit Scope js_scope with M.
Notation "x <- m ;; k" := (bind m (fun x => k))
  (at level 61, m at next level, right associativity) : js_scope.
Notation "m ;; k" := (bind m (fun _ => k))
  (at level 61, right associativity) : js_scope.
Local Open Scope js_scope.

Definition emit (e : event) : M unit :=
  fun s => (Ret tt, mkState (trace s ++ [e]) (pngFiles s) (uploadResults s)).

Definition lift {A} (r : res A) : M A :=
  match r with
  | Ok a => ret a
  | Err e => throw e
  end.

(** [console.log(...args)], [console.warn(...args)] and
    [console.error(...args)]. *)
Definition console_log (args : list jsstring) : M unit :=
  emit (EvConsole Log args).
Definition console_warn (args : list jsstring) : M unit :=
  emit (EvConsole Warn args).
Definition console_error (args : list jsstring) : M unit :=
  emit (EvConsole ErrorLevel args).

Definition process_exit {A} (code : Z) : M A :=
  fun s => (Exited code,
            mkState (trace s ++ [EvExit code]) (pngFiles s) (uploadResults s)).

(** [for (const x of l) { body }]. *)
Definition for_of {A} (l : list A) (body : A -> M unit) : M unit :=
  (fix iterate (xs : list A) : M unit :=
     match xs with
     | [] => ret tt
     | x :: rest => body x ;; iterate rest
     end) l.

(** The arrays. *)
Definition new_pngFiles : M unit :=
  fun s => (Ret tt, mkState (trace s) [] (uploadResults s)).
Definition pngFiles_push (p : jsstring) : M unit :=
  fun s => (Ret tt, mkState (trace s) (pngFiles s ++ [p]) (uploadResults s)).
Definition get_pngFiles : M (list jsstring) := fun s => (Ret (pngFiles s), s).
Definition new_uploadResults : M unit :=
  fun s => (Ret tt, mkState (trace s) (pngFiles s) []).
Definition uploadResults_push (r : UploadResult) : M unit :=
  fun s => (Ret tt, mkState (trace s) (pngFiles s) (uploadResults s ++ [r])).
Definition get_uploadResults : M (list UploadResult) :=
  fun s => (Ret (uploadResults s), s).

(** The platform calls. *)
Definition fs_access (w : World) (path : jsstring) : M unit :=
  match lookup w path with
  | Some _ => emit (EvAccess path true)
  | None => emit (EvAccess path false) ;; throw (ENOENT (js "access") path)
  end.

Definition fs_readFile (w : World) (path : jsstring) : M Buffer :=
  fun s => let answer := readFile w (trace s) path in
           (emit (EvReadFile path answer) ;; lift answer) s.

Definition Date_now (w : World) : M Z :=
  fun s => let ms := now w (trace s) in (emit (EvNow ms) ;; ret ms) s.

Definition do_fetch (w : World) (url : jsstring) (req : Request) : M Response :=
  fun s => let answer := fetch w (trace s) url req in
           (emit (EvFetch url req answer) ;; lift answer) s.

(** ** The script *)

Section Script.

(** Three functions of the platform that the script calls and whose
    results it only passes on: [JSON.parse], [path.relative] and
    [JSON.stringify(output, null, 2)] at the shape of line 169. *)
Variable JSON_parse : jsstring -> res jsval.
Variable path_relative : jsstring -> jsstring -> jsstring.
Variable JSON_stringify :
  list UploadResult -> list UploadResult -> nat -> jsstring.

Variable w : World.

(** [response.text()] and [response.json()]. *)
Definition response_text (r : Response) : M jsstring := lift (text r).

Definition response_json (r : Response) : M jsval :=
  t <- lift (text r) ;; lift (JSON_parse t).

(** What [${value}] prints for a value read from the environment. *)
Definition template (v : option jsstring) : jsstring :=
  match v with
  | Some s => s
  | None => js "undefined"
  end.

(** [!value] for a string or [undefined]. *)
Definition falsy (v : option jsstring) : bool :=
  match v with
  | None => true
  | Some [] => true
  | Some (_ :: _) => false
  end.

(** *** class MicroCMSUploader *)

Record MicroCMSUploader := mkUploader {
  serviceDomain : option jsstring;
  apiKey : option jsstring;
  baseUrl : jsstring }.

(** Lines 7-11. *)
Definition constructor (serviceDomain apiKey : option jsstring)
  : MicroCMSUploader :=
  mkUploader serviceDomain apiKey
    (js "https://" ++ template serviceDomain ++ js ".microcms-management.io").

(** Lines 20-31: the switch on the extension. *)
Definition contentTypeOf (fileExtension : jsstring) : res jsstring :=
  if str_eqb fileExtension (js ".png") then Ok (js "image/png")
  else if str_eqb fileExtension (js ".jpg")
          || str_eqb fileExtension (js ".jpeg") then Ok (js "image/jpeg")
  else Err (Error (js "Unsupported file type: " ++ fileExtension)).

(** Line 34. *)
Definition boundaryOf (ms : Z) : jsstring :=
  js "----formdata-boundary-" ++ dec_Z ms.

(** Lines 35-42. *)
Definition formData (boundary fileName contentType : jsstring)
    (fileBuffer : Buffer) : jsstring :=
  join CRLF
    [ js "--" ++ boundary;
      js "Content-Disposition: form-data; name=" ++ [QUOTE] ++ js "file"
        ++ [QUOTE] ++ js "; filename=" ++ [QUOTE] ++ fileName ++ [QUOTE];
      js "Content-Type: " ++ contentType;
      [];
      Buffer_toString_binary fileBuffer;
      js "--" ++ boundary ++ js "--" ].

(** Lines 44-52: the request handed to [fetch]. *)
Definition requestOf (this : MicroCMSUploader) (boundary form : jsstring)
  : Request :=
  mkRequest (js "POST")
    (mkHeaders (template (apiKey this))
               (js "multipart/form-data; boundary=" ++ boundary)
               (Buffer_byteLength_binary form))
    (Buffer_from_binary form).

(** Lines 13-65. *)
Definition uploadImage (this : MicroCMSUploader) (filePath : jsstring)
  : M jsval :=
  try_catch
    (fileBuffer <- fs_readFile w filePath ;;
     let fileName := Path.basename filePath in
     let fileExtension := toLowerCase (Path.extname filePath) in
     contentType <- lift (contentTypeOf fileExtension) ;;
     ms <- Date_now w ;;
     let boundary := boundaryOf ms in
     let form := formData boundary fileName contentType fileBuffer in
     response <- do_fetch w (baseUrl this ++ js "/api/v1/media")
                   (requestOf this boundary form) ;;
     (if negb (ok response) then
        errorText <- response_text response ;;
        throw (Error (js "Upload failed: " ++ dec_N (status response)
                        ++ js " " ++ statusText response
                        ++ js " - " ++ errorText))
      else ret tt) ;;
     result <- response_json response ;;
     lift (get_url result))
    (fun error =>
       console_error [js "Failed to upload " ++ filePath ++ js ":";
                      message error] ;;
       throw error).

(** Lines 70-86: [scanDirectory], pushing onto the shared [pngFiles]. *)
Fixpoint scanDirectory (currentPath : jsstring) (d : node) {struct d}
  : M unit :=
  try_catch
    (match d with
     | Dir None entries =>
         emit (EvReaddir currentPath None) ;;
         for_of entries (fun dirent =>
           let '(name, entry) := dirent in
           let fullPath := Path.join [currentPath; name] in
           match entry with
           | Dir _ _ => scanDirectory fullPath entry
           | File =>
               if endsWith (toLowerCase name) (js ".png")
               then pngFiles_push fullPath
               else ret tt
           | Other => ret tt
           end)
     | Dir (Some e) _ =>
         emit (EvReaddir currentPath (Some e)) ;; throw e
     | File | Other =>
         let e := ENOTDIR (js "scandir") currentPath in
         emit (EvReaddir currentPath (Some e)) ;; throw e
     end)
    (fun error =>
       console_warn [js "Could not scan directory " ++ currentPath ++ js ":";
                     message error]).

(** Lines 67-90. *)
Definition findPngFiles (directoryPath : jsstring) : M (list jsstring) :=
  new_pngFiles ;;
  scanDirectory directoryPath (nodeAt w directoryPath) ;;
  get_pngFiles.

(** Lines 104-126: the body of the loop over the files found.  The
    template literal of line 116 converts [url] to a string before
    [console.log] is called, inside the [try]. *)
Definition uploadOne (this : MicroCMSUploader)
    (directoryPath filePath : jsstring) : M unit :=
  let fileName := Path.basename filePath in
  let relativePath := path_relative directoryPath filePath in
  try_catch
    (url <- uploadImage this filePath ;;
     uploadResults_push (Success fileName relativePath url) ;;
     shown <- lift (ToString url) ;;
     console_log [CHECK_MARK ++ js " Uploaded: " ++ relativePath
                    ++ js " -> " ++ shown])
    (fun error =>
       uploadResults_push (Failure fileName relativePath (message error)) ;;
       console_error [BALLOT_X ++ js " Failed: " ++ relativePath
                        ++ js " - " ++ message error]).

(** Lines 92-133. *)
Definition uploadDirectory (this : MicroCMSUploader)
    (directoryPath : jsstring) : M (list UploadResult) :=
  try_catch
    (found <- findPngFiles directoryPath ;;
     if (length found =? 0)%nat then
       console_log [js "No PNG files found in directory and subdirectories"] ;;
       ret []
     else
       console_log [js "Found " ++ dec_nat (length found)
                      ++ js " PNG files to upload"] ;;
       new_uploadResults ;;
       for_of found (uploadOne this directoryPath) ;;
       get_uploadResults)
    (fun error =>
       console_error [js "Failed to process directory:"; message error] ;;
       throw error).

(** *** main *)

Definition screenshotsPath : jsstring := js "/tmp/playwright-mcp-output".

(** Lines 136-188.  The batch step is a parameter, so that the entry
    point can be studied with any [uploadDirectory], also one that
    throws. *)
Definition main_with
    (batch : MicroCMSUploader -> jsstring -> M (list UploadResult)) : M unit :=
  let serviceDomain := env w (js "MICROCMS_SERVICE_DOMAIN") in
  let apiKey := env w (js "MICROCMS_API_KEY") in
  (if falsy serviceDomain || falsy apiKey then
     console_error
       [js "Error: MICROCMS_SERVICE_DOMAIN and MICROCMS_API_KEY "
          ++ js "environment variables are required"] ;;
     process_exit 1%Z
   else ret tt) ;;
  try_catch
    (let uploader := constructor serviceDomain apiKey in
     try_catch
       (fs_access w screenshotsPath)
       (fun _ =>
          console_log [js "Screenshots directory not found: "
                         ++ screenshotsPath] ;;
          process_exit 0%Z) ;;
     console_log [js "Uploading screenshots from: " ++ screenshotsPath] ;;
     results <- batch uploader screenshotsPath ;;
     let successfulUploads := filter success results in
     let failedUploads := filter (fun r => negb (success r)) results in
     console_log [LF ++ js "Upload Summary:"] ;;
     console_log [CHECK_MARK ++ js " Successful: "
                    ++ dec_nat (length successfulUploads)] ;;
     console_log [BALLOT_X ++ js " Failed: "
                    ++ dec_nat (length failedUploads)] ;;
     (match env w (js "GITHUB_ACTIONS") with
      | Some v =>
          if str_eqb v (js "true") then
            console_log [LF ++ js "--- UPLOAD_RESULTS_JSON ---"] ;;
            console_log [JSON_stringify successfulUploads failedUploads
                           (length results)] ;;
            console_log [js "--- END_UPLOAD_RESULTS_JSON ---"]
          else ret tt
      | None => ret tt
      end) ;;
     if (0 <? length failedUploads)%nat then process_exit 1%Z else ret tt)
    (fun error =>
       console_error [js "Upload script failed:"; message error] ;;
       process_exit 1%Z).

Definition main : M unit := main_with uploadDirectory.

(** The process starts with an empty log. *)
Definition initial : state := mkState [] [] [].

(** The exit code of the process and what it did: the code given to
    [process.exit], 0 when [main] returns, 1 when its promise rejects. *)
Definition run (m : M unit) : Z * list event :=
  match m initial with
  | (Ret _, s) => (0%Z, trace s)
  | (Exited code, s) => (code, trace s)
  | (Thrown _, s) => (1%Z, trace s)
  end.

End Script.

Arguments js : simpl never.
Arguments dec_N : simpl never.
Arguments dec_Z : simpl never.
Arguments dec_nat : simpl never.
Arguments toLowerCase : simpl never.
Arguments endsWith : simpl never.
Arguments Path.basename : simpl never.
Arguments Path.extname : simpl never.
Arguments Path.join : simpl never.
Arguments formData : simpl never.
Arguments requestOf : simpl never.
Arguments boundaryOf : simpl never.
Arguments contentTypeOf : simpl never.
Arguments get_url : simpl never.
Arguments ToString : simpl never.

(** ** Reading the file system without the effects *)

(** Whether a directory entry name is taken by line 79. *)
Definition is_png_name (name : jsstring) : bool :=
  endsWith (toLowerCase name) (js ".png").

(** Every regular file below a directory, whether the directories on the
    way can be listed or not: full path and name, depth first, in listing
    order. *)
Fixpoint files_under (currentPath : jsstring) (d : node) {struct d}
  : list (jsstring * jsstring) :=
  match d with
  | Dir _ entries =>
      flat_map (fun dirent =>
        let '(name, entry) := dirent in
        let fullPath := Path.join [currentPath; name] in
        match entry with
        | File => [(fullPath, name)]
        | Dir _ _ => files_under fullPath entry
        | Other => []
        end) entries
  | File | Other => []
  end.

Definition png_files_under (currentPath : jsstring) (d : node)
  : list (jsstring * jsstring) :=
  filter (fun f => is_png_name (snd f)) (files_under currentPath d).

Definition other_files_under (currentPath : jsstring) (d : node)
  : list (jsstring * jsstring) :=
  filter (fun f => negb (is_png_name (snd f))) (files_under currentPath d).

(** Every directory of the tree can be listed. *)
Fixpoint listable (d : node) : bool :=
  match d with
  | Dir None entries => forallb (fun dirent => listable (snd dirent)) entries
  | Dir (Some _) _ => false
  | File | Other => true
  end.

(** A name as [readdir] gives it: not empty, without separator, and
    neither [.] nor [..]. *)
Definition plain_name (name : jsstring) : bool :=
  negb (str_eqb name []) && negb (str_eqb name [DOT])
  && negb (str_eqb name [DOT; DOT])
  && forallb (fun c => negb (Path.is_sep c)) name.

(** A string without separator, and a string that is empty or ends with
    a separator. *)
Definition no_sep (s : jsstring) : Prop :=
  forallb (fun c => negb (Path.is_sep c)) s = true.

Definition dir_prefix (y : jsstring) : Prop :=
  y = [] \/ exists y', y = y' ++ [SLASH].

Fixpoint plain_names (d : node) : bool :=
  match d with
  | Dir _ entries =>
      forallb (fun dirent =>
        plain_name (fst dirent) && plain_names (snd dirent)) entries
  | File | Other => true
  end.

(** The paths a scan pushes, and the events it leaves in the log. *)
Fixpoint found_under (currentPath : jsstring) (d : node) {struct d}
  : list jsstring :=
  match d with
  | Dir None entries =>
      flat_map (fun dirent =>
        let '(name, entry) := dirent in
        let fullPath := Path.join [currentPath; name] in
        match entry with
        | File => if is_png_name name then [fullPath] else []
        | Dir _ _ => found_under fullPath entry
        | Other => []
        end) entries
  | _ => []
  end.

(** Line 84. *)
Definition scan_warning (currentPath : jsstring) (e : exn) : event :=
  EvConsole Warn [js "Could not scan directory " ++ currentPath ++ js ":";
                  message e].

Fixpoint scan_events (currentPath : jsstring) (d : node) {struct d}
  : list event :=
  match d with
  | Dir None entries =>
      EvReaddir currentPath None ::
      flat_map (fun dirent =>
        let '(name, entry) := dirent in
        match entry with
        | Dir _ _ => scan_events (Path.join [currentPath; name]) entry
        | _ => []
        end) entries
  | Dir (Some e) _ =>
      [EvReaddir currentPath (Some e); scan_warning currentPath e]
  | File | Other =>
      [EvReaddir currentPath (Some (ENOTDIR (js "scandir") currentPath));
       scan_warning currentPath (ENOTDIR (js "scandir") currentPath)]
  end.

(** The part of a tree that a scan can reach: a directory that cannot be
    listed shows none of its entries. *)
Fixpoint reachable (d : node) : node :=
  match d with
  | Dir None entries =>
      Dir None (map (fun dirent => (fst dirent, reachable (snd dirent)))
                    entries)
  | Dir (Some e) _ => Dir (Some e) []
  | File => File
  | Other => Other
  end.

(** The paths whose listing fails, among those a scan reaches, depth
    first: the directories that cannot be listed, and a starting path
    that is not a directory. *)
Fixpoint unlistable_under (currentPath : jsstring) (d : node) {struct d}
  : list jsstring :=
  match d with
  | Dir None entries =>
      flat_map (fun dirent =>
        let '(name, entry) := dirent in
        match entry with
        | Dir _ _ => unlistable_under (Path.join [currentPath; name]) entry
        | _ => []
        end) entries
  | Dir (Some _) _ => [currentPath]
  | File | Other => [currentPath]
  end.

(** The events a computation adds to the log of the state it starts in. *)
Definition events_of {A} (m : M A) (s : state) : list event :=
  skipn (length (trace s)) (trace (snd (m s))).

Definition is_fetch (e : event) : bool :=
  match e with
  | EvFetch _ _ _ => true
  | _ => false
  end.

(** Events that touch the file system or the network. *)
Definition is_io (e : event) : bool :=
  match e with
  | EvAccess _ _ | EvReaddir _ _ | EvReadFile _ _ | EvFetch _ _ _ => true
  | _ => false
  end.


(** Induction on a tree, with the entries of a directory as hypotheses. *)
Section Node_induction.
Variable P : node -> Prop.
Hypothesis P_File : P File.
Hypothesis P_Other : P Other.
Hypothesis P_Dir :
  forall failure entries,
    Forall (fun ne => P (snd ne)) entries -> P (Dir failure entries).

Fixpoint node_rect_nested (d : node) : P d :=
  match d with
  | File => P_File
  | Other => P_Other
  | Dir failure entries =>
      P_Dir failure entries
        ((fix all (es : list (jsstring * node))
            : Forall (fun ne => P (snd ne)) es :=
            match es with
            | [] => Forall_nil _
            | ne :: rest =>
                Forall_cons ne (node_rect_nested (snd ne)) (all rest)
            end) entries)
  end.
End Node_induction.

(** ** The steps of the script, as values *)

Definition log_to (s : state) (evs : list event) : state :=
  mkState (trace s ++ evs) (pngFiles s) (uploadResults s).

Definition push_to (s : state) (evs : list event) (rs : list UploadResult)
  : state :=
  mkState (trace s ++ evs) (pngFiles s) (uploadResults s ++ rs).

(** The paths handed to [readFile], in order. *)
Definition read_paths (evs : list event) : list jsstring :=
  flat_map (fun e => match e with EvReadFile p _ => [p] | _ => [] end) evs.

(** Line 62. *)
Definition upload_failure_line (filePath : jsstring) (e : exn) : event :=
  EvConsole ErrorLevel [js "Failed to upload " ++ filePath ++ js ":"; message e].

(** Lines 116 and 124. *)
Definition success_line (relativePath shown : jsstring) : event :=
  EvConsole Log
    [CHECK_MARK ++ js " Uploaded: " ++ relativePath ++ js " -> " ++ shown].

Definition failure_line (relativePath msg : jsstring) : event :=
  EvConsole ErrorLevel
    [BALLOT_X ++ js " Failed: " ++ relativePath ++ js " - " ++ msg].

(** Lines 54-60, once the response is there. *)
Definition response_result (JSON_parse : jsstring -> res jsval)
    (response : Response) : res jsval :=
  if negb (ok response) then
    match text response with
    | Ok errorText =>
        Err (Error (js "Upload failed: " ++ dec_N (status response)
                      ++ js " " ++ statusText response
                      ++ js " - " ++ errorText))
    | Err e => Err e
    end
  else
    match text response with
    | Ok t => match JSON_parse t with
              | Ok result => get_url result
              | Err e => Err e
              end
    | Err e => Err e
    end.

(** The form of lines 35-42 in three pieces: what precedes the file
    content, the content, what follows it. *)
Definition form_head (boundary fileName contentType : jsstring) : jsstring :=
  js "--" ++ boundary ++ CRLF
  ++ js "Content-Disposition: form-data; name=" ++ [QUOTE] ++ js "file"
  ++ [QUOTE] ++ js "; filename=" ++ [QUOTE] ++ fileName ++ [QUOTE] ++ CRLF
  ++ js "Content-Type: " ++ contentType ++ CRLF
  ++ CRLF.

Definition form_tail (boundary : jsstring) : jsstring :=
  CRLF ++ js "--" ++ boundary ++ js "--".

(** A multipart/form-data payload as a value: parts with a name, a file
    name, a content type and a content, each introduced by the boundary
    line, and the closing boundary line after the last one. *)
Record Part := mkPart {
  part_name : jsstring;
  part_filename : jsstring;
  part_contentType : jsstring;
  part_content : jsstring }.

Definition render_part (boundary : jsstring) (p : Part) : jsstring :=
  js "--" ++ boundary ++ CRLF
  ++ js "Content-Disposition: form-data; name=" ++ [QUOTE] ++ part_name p
  ++ [QUOTE] ++ js "; filename=" ++ [QUOTE] ++ part_filename p ++ [QUOTE]
  ++ CRLF
  ++ js "Content-Type: " ++ part_contentType p ++ CRLF
  ++ CRLF
  ++ part_content p ++ CRLF.

Definition multipart_form_data (boundary : jsstring) (parts : list Part)
  : jsstring :=
  concat (map (render_part boundary) parts) ++ js "--" ++ boundary ++ js "--".

(** A code unit of the Latin-1 range. *)
Definition latin1 (s : jsstring) : Prop := Forall (fun c => c < 256) s.

Section Recorded.
Variable JSON_parse : jsstring -> res jsval.
Variable path_relative : jsstring -> jsstring -> jsstring.
Variable w : World.
Variable directoryPath : jsstring.

(** A value [uploadImage] can return: what lines 54-60 make of a response
    that the network of this world gives. *)
Definition returned (url : jsval) : Prop :=
  exists history target req response,
    fetch w history target req = Ok response
    /\ response_result JSON_parse response = Ok url.

(** What one round of the loop of lines 104-126 pushes for a file. *)
Inductive recorded (filePath : jsstring) : list UploadResult -> Prop :=
| recorded_success url shown :
    returned url -> ToString url = Ok shown ->
    recorded filePath
      [Success (Path.basename filePath)
               (path_relative directoryPath filePath) url]
| recorded_failure msg :
    recorded filePath
      [Failure (Path.basename filePath)
               (path_relative directoryPath filePath) msg]
| recorded_both url e :
    returned url -> ToString url = Err e ->
    recorded filePath
      [Success (Path.basename filePath)
               (path_relative directoryPath filePath) url;
       Failure (Path.basename filePath)
               (path_relative directoryPath filePath) (message e)].

(** The entry of a file in the report: a success with the URL, or a
    failure with the message. *)
Definition entry_of (filePath : jsstring) (r : UploadResult) : Prop :=
  (exists url, r = Success (Path.basename filePath)
                           (path_relative directoryPath filePath) url)
  \/ (exists msg, r = Failure (Path.basename filePath)
                              (path_relative directoryPath filePath) msg).

(** Whatever the network of this world answers, the [url] an upload
    returns from it has a string conversion. *)
Definition printable_urls : Prop :=
  forall url, returned url -> exists shown, ToString url = Ok shown.
End Recorded.

(** ** The entry point, as values *)

Definition credentials (w : World) : bool :=
  negb (falsy (env w (js "MICROCMS_SERVICE_DOMAIN"))
        || falsy (env w (js "MICROCMS_API_KEY"))).

Definition the_uploader (w : World) : MicroCMSUploader :=
  constructor (env w (js "MICROCMS_SERVICE_DOMAIN"))
              (env w (js "MICROCMS_API_KEY")).

(** The state in which line 158 calls the batch runner. *)
Definition before_batch : state :=
  mkState [EvAccess screenshotsPath true;
           EvConsole Log [js "Uploading screenshots from: " ++ screenshotsPath]]
          [] [].

Definition credentials_error : event :=
  EvConsole ErrorLevel
    [js "Error: MICROCMS_SERVICE_DOMAIN and MICROCMS_API_KEY "
       ++ js "environment variables are required"].

Definition directory_missing : list event :=
  [EvAccess screenshotsPath false;
   EvConsole Log [js "Screenshots directory not found: " ++ screenshotsPath];
   EvExit 0].

(** The world with both credentials removed from the environment. *)
Definition without_credentials (w : World) : World :=
  mkWorld (fun name =>
             if str_eqb name (js "MICROCMS_SERVICE_DOMAIN")
                || str_eqb name (js "MICROCMS_API_KEY")
             then None else env w name)
          (lookup w) (readFile w) (now w) (fetch w).

(** ** Sample worlds *)

Module Sample.

Definition root : jsstring := screenshotsPath.

Definition env_ok (name : jsstring) : option jsstring :=
  if str_eqb name (js "MICROCMS_SERVICE_DOMAIN") then Some (js "my-service")
  else if str_eqb name (js "MICROCMS_API_KEY") then Some (js "secret-key")
  else None.

Definition env_empty_key (name : jsstring) : option jsstring :=
  if str_eqb name (js "MICROCMS_SERVICE_DOMAIN") then Some (js "my-service")
  else if str_eqb name (js "MICROCMS_API_KEY") then Some []
  else None.

Definition env_none (name : jsstring) : option jsstring := None.

(** The first bytes of a PNG file. *)
Definition png_bytes : Buffer := [x89; x50; x4e; x47; x0d; x0a; x1a; x0a].

(** Two response bodies: an object whose [url] is a string, and one
    whose [url] is an object with a property [toString]. *)
Definition body_ok : jsstring :=
  js "{" ++ [QUOTE] ++ js "url" ++ [QUOTE] ++ js ":" ++ [QUOTE]
  ++ js "https://x/y.png" ++ [QUOTE] ++ js "}".

Definition body_unprintable : jsstring :=
  js "{" ++ [QUOTE] ++ js "url" ++ [QUOTE] ++ js ":{" ++ [QUOTE]
  ++ js "toString" ++ [QUOTE] ++ js ":null}}".

(** [JSON.parse] on these two bodies; any other text is taken not to
    parse. *)
Definition JSON_parse (t : jsstring) : res jsval :=
  if str_eqb t body_ok
  then Ok (JObj [(js "url", JStr (js "https://x/y.png"))])
  else if str_eqb t body_unprintable
  then Ok (JObj [(js "url", JObj [(js "toString", JNull)])])
  else Err (Error (js "Unexpected token in JSON")).

(** [path.relative] for a path below the directory. *)
Definition path_relative (from to : jsstring) : jsstring :=
  skipn (length from + 1) to.

Definition JSON_stringify (successful failed : list UploadResult)
    (total : nat) : jsstring := js "{}".

Definition respond (st : N) (stText bodyText : jsstring)
  : list event -> jsstring -> Request -> res Response :=
  fun _ _ _ => Ok (mkResponse st stText (Ok bodyText)).

(** The second request of a run is answered with a 500, the others with
    the URL. *)
Definition second_fails : list event -> jsstring -> Request -> res Response :=
  fun history _ _ =>
    if (length (filter is_fetch history) =? 1)%nat
    then Ok (mkResponse 500 (js "Internal Server Error") (Ok (js "boom")))
    else Ok (mkResponse 200 (js "OK") (Ok body_ok)).

Definition world (environment : jsstring -> option jsstring)
    (tree : option node)
    (network : list event -> jsstring -> Request -> res Response) : World :=
  mkWorld environment
          (fun p => if str_eqb p root then tree else None)
          (fun _ _ => Ok png_bytes)
          (fun _ => 1700000000000%Z)
          network.

Definition one_png : node := Dir None [(js "a.png", File)].

Definition three_png : node :=
  Dir None [(js "a.png", File); (js "notes.txt", File);
            (js "sub", Dir None [(js "b.PNG", File)]);
            (js "c.Png", File)].

(** A directory that cannot be listed, with a PNG file in it, next to
    one that can. *)
Definition EACCES (syscall path : jsstring) : exn :=
  fs_error (js "EACCES: permission denied") syscall path.

Definition hidden_png : node :=
  Dir None [(js "secret",
             Dir (Some (EACCES (js "scandir")
                          (js "/tmp/playwright-mcp-output/secret")))
                 [(js "a.png", File)]);
            (js "open", Dir None [(js "b.png", File)])].

Definition no_png : node :=
  Dir None [(js "notes.txt", File); (js "png", Dir None [(js "a.jpg", File)])].

Definition w_ok : World :=
  world env_ok (Some one_png) (respond 200 (js "OK") body_ok).
Definition w_500 : World :=
  world env_ok (Some one_png)
        (respond 500 (js "Internal Server Error") (js "boom")).
Definition w_unprintable : World :=
  world env_ok (Some one_png) (respond 200 (js "OK") body_unprintable).
Definition w_three : World := world env_ok (Some three_png) second_fails.
Definition w_hidden : World :=
  world env_ok (Some hidden_png) (respond 200 (js "OK") body_ok).
Definition w_no_png : World :=
  world env_ok (Some no_png) (respond 200 (js "OK") body_ok).
Definition w_no_directory : World :=
  world env_ok None (respond 200 (js "OK") body_ok).
Definition w_no_credentials : World :=
  world env_none (Some one_png) (respond 200 (js "OK") body_ok).
Definition w_empty_key : World :=
  world env_empty_key (Some one_png) (respond 200 (js "OK") body_ok).

Definition uploader : MicroCMSUploader :=
  constructor (Some (js "my-service")) (Some (js "secret-key")).

End Sample.

(** ** Kinds of events *)

Definition is_console (e : event) : bool :=
  match e with
  | EvConsole _ _ => true
  | _ => false
  end.

Definition is_warning (e : event) : bool :=
  match e with
  | EvConsole Warn _ => true
  | _ => false
  end.

Definition is_readdir (e : event) : bool :=
  match e with
  | EvReaddir _ _ => true
  | _ => false
  end.

Definition is_failed_readdir (e : event) : bool :=
  match e with
  | EvReaddir _ (Some _) => true
  | _ => false
  end.

(** An event of an upload: a file read, a look at the clock, a request. *)
Definition is_upload_io (e : event) : bool :=
  match e with
  | EvReadFile _ _ | EvNow _ | EvFetch _ _ _ => true
  | _ => false
  end.

(** The test of line 168. *)
Definition github_actions (w : World) : bool :=
  match env w (js "GITHUB_ACTIONS") with
  | Some v => str_eqb v (js "true")
  | None => false
  end.

(** The lines of lines 163-165 and 174-176. *)
Definition summary_lines (results : list UploadResult) : list event :=
  [EvConsole Log [LF ++ js "Upload Summary:"];
   EvConsole Log [CHECK_MARK ++ js " Successful: "
                    ++ dec_nat (length (filter success results))];
   EvConsole Log [BALLOT_X ++ js " Failed: "
                    ++ dec_nat (length (filter (fun r => negb (success r))
                                               results))]].

Definition json_block_opening : event :=
  EvConsole Log [LF ++ js "--- UPLOAD_RESULTS_JSON ---"].

Definition json_block_closing : event :=
  EvConsole Log [js "--- END_UPLOAD_RESULTS_JSON ---"].

(** ** Further sample worlds *)

Module More.

(** Bodies without a usable [url]: the empty object and [null]. *)
Definition body_empty_object : jsstring := js "{}".
Definition body_null : jsstring := js "null".

(** [JSON.parse] on these two bodies and on the ones of [Sample]. *)
Definition JSON_parse (t : jsstring) : res jsval :=
  if str_eqb t body_empty_object then Ok (JObj [])
  else if str_eqb t body_null then Ok JNull
  else Sample.JSON_parse t.

Definition env_ci (name : jsstring) : option jsstring :=
  if str_eqb name (js "GITHUB_ACTIONS") then Some (js "true")
  else Sample.env_ok name.

Definition ECONNREFUSED : exn := Error (js "fetch failed").

Definition w_empty_object : World :=
  Sample.world Sample.env_ok (Some Sample.one_png)
    (Sample.respond 200 (js "OK") body_empty_object).

Definition w_null : World :=
  Sample.world Sample.env_ok (Some Sample.one_png)
    (Sample.respond 200 (js "OK") body_null).

Definition w_file_root : World :=
  Sample.world Sample.env_ok (Some File)
    (Sample.respond 200 (js "OK") Sample.body_ok).

Definition w_ci : World :=
  Sample.world env_ci (Some Sample.three_png) Sample.second_fails.

(** A world whose files cannot be read, and one whose network is down. *)
Definition w_unreadable : World :=
  mkWorld Sample.env_ok
          (fun p => if str_eqb p Sample.root then Some Sample.one_png else None)
          (fun _ path => Err (ENOENT (js "open") path))
          (fun _ => 1700000000000%Z)
          (Sample.respond 200 (js "OK") Sample.body_ok).

Definition w_offline : World :=
  Sample.world Sample.env_ok (Some Sample.one_png)
    (fun _ _ _ => Err ECONNREFUSED).

(** The world of [Sample.w_ok] one millisecond later. *)
Definition w_later : World :=
  mkWorld Sample.env_ok
          (fun p => if str_eqb p Sample.root then Some Sample.one_png else None)
          (fun _ _ => Ok Sample.png_bytes)
          (fun _ => 1700000000001%Z)
          (Sample.respond 200 (js "OK") Sample.body_ok).

(** A file with a Japanese name, U+65E5 U+672C, and the name its code
    units are written as, U+00E5 U+002C. *)
Definition nihon_png : jsstring := [26085; 26412] ++ js ".png".
Definition sent_png : jsstring := [229; 44] ++ js ".png".

Definition w_nihon : World :=
  Sample.world Sample.env_ok (Some (Dir None [(nihon_png, File)]))
    (Sample.respond 200 (js "OK") Sample.body_ok).

(** A photograph and a film next to a screenshot. *)
Definition w_mixed : World :=
  Sample.world Sample.env_ok
    (Some (Dir None [(js "a.PNG", File); (js "photo.jpeg", File);
                     (js "movie.GIF", File)]))
    (Sample.respond 200 (js "OK") Sample.body_ok).

End More.

(** * Properties *)

(** ** The platform functions on examples *)

Example basename_ex1 : Path.basename (js "/tmp/out/a.PNG") = js "a.PNG".
Proof. reflexivity. Qed.
Example basename_ex2 : Path.basename (js "/tmp/out/dir//") = js "dir".
Proof. reflexivity. Qed.
Example extname_ex1 : Path.extname (js "/tmp/out/a.tar.PNG") = js ".PNG".
Proof. reflexivity. Qed.
Example extname_ex2 : Path.extname (js "/tmp/out/.png") = [].
Proof. reflexivity. Qed.
Example extname_ex3 : Path.extname (js "/tmp/out/..") = [].
Proof. reflexivity. Qed.
Example extname_ex4 : Path.extname (js "/tmp/out/..png") = js ".png".
Proof. reflexivity. Qed.
Example extname_ex5 : Path.extname (js "a.") = js ".".
Proof. reflexivity. Qed.
Example join_ex1 : Path.join [js "/tmp/out"; js "a.png"] = js "/tmp/out/a.png".
Proof. reflexivity. Qed.
Example join_ex2 : Path.join [js "./x/../y/"; js "a.png"] = js "y/a.png".
Proof. reflexivity. Qed.
Example join_ex3 : Path.join [js "."; js "a.png"] = js "a.png".
Proof. reflexivity. Qed.
Example join_ex4 : Path.join [js "../.."; js "a.png"] = js "../../a.png".
Proof. reflexivity. Qed.
Example join_ex5 : Path.join [js "/.."; js "a.png"] = js "/a.png".
Proof. reflexivity. Qed.
Example dec_ex :
  dec_N 500 = js "500" /\ dec_Z (-5) = js "-5" /\ dec_N 0 = js "0".
Proof. repeat split; reflexivity. Qed.

(** ** Strings and paths *)

Lemma str_eqb_eq a : forall b, str_eqb a b = true <-> a = b.
Proof.
  induction a as [ | x a IH]; intros [ | y b]; cbn; split; intros H;
    try reflexivity; try discriminate.
  - apply andb_true_iff in H as [Hx Hr]. apply N.eqb_eq in Hx.
    apply IH in Hr. congruence.
  - injection H as -> ->. rewrite N.eqb_refl. cbn. apply IH. reflexivity.
Qed.

Lemma str_eqb_refl a : str_eqb a a = true.
Proof. apply str_eqb_eq. reflexivity. Qed.

Lemma split_not_nil s : Path.split s <> [].
Proof.
  destruct s as [ | c r]; cbn; [discriminate | ].
  destruct (Path.is_sep c); [discriminate | ].
  destruct (Path.split r); discriminate.
Qed.

Lemma split_no_sep s : no_sep s -> Path.split s = [s].
Proof.
  unfold no_sep. induction s as [ | c r IH]; cbn; intros H; [reflexivity | ].
  apply andb_true_iff in H as [Hc Hr].
  apply negb_true_iff in Hc. rewrite Hc, (IH Hr). reflexivity.
Qed.

Lemma split_app_sep a b :
  Path.split (a ++ SLASH :: b) = Path.split a ++ Path.split b.
Proof.
  induction a as [ | c a IH]; cbn [app Path.split].
  - reflexivity.
  - rewrite IH. destruct (Path.is_sep c); [reflexivity | ].
    destruct (Path.split a) as [ | seg segs] eqn:E; [ | reflexivity].
    exfalso. exact (split_not_nil a E).
Qed.

Lemma join_snoc sep l n :
  join sep (l ++ [n])
  = match l with
    | [] => n
    | _ => join sep l ++ sep ++ n
    end.
Proof.
  induction l as [ | x l IH]; [reflexivity | ].
  cbn [app]. destruct l as [ | y l].
  - reflexivity.
  - cbn [app] in *. change (join sep (x :: y :: l ++ [n]))
      with (x ++ sep ++ join sep (y :: l ++ [n])).
    rewrite IH.
    change (join sep (x :: y :: l))
      with (x ++ sep ++ join sep (y :: l)).
    rewrite <- !app_assoc. reflexivity.
Qed.

Lemma norm_step_plain allow stack n :
  plain_name n = true -> Path.norm_step allow stack n = n :: stack.
Proof.
  unfold plain_name, Path.norm_step. intros H.
  repeat (apply andb_true_iff in H as [H ?]).
  apply negb_true_iff in H.
  repeat match goal with
         | H : negb _ = true |- _ => apply negb_true_iff in H
         end.
  rewrite H. cbn [orb].
  repeat match goal with
         | H : str_eqb _ _ = false |- _ => rewrite H
         end.
  reflexivity.
Qed.

Lemma plain_name_no_sep n : plain_name n = true -> no_sep n.
Proof.
  unfold plain_name, no_sep. intros H.
  apply andb_true_iff in H as [_ H]. exact H.
Qed.

Lemma plain_name_not_nil n : plain_name n = true -> n <> [].
Proof. intros H ->. discriminate H. Qed.

Lemma last_app_not_nil {A} (x n : list A) d :
  n <> [] -> last (x ++ n) d = last n d.
Proof.
  intros Hn. induction x as [ | a x IH]; [reflexivity | ].
  cbn [app]. destruct (x ++ n) eqn:E.
  - destruct x; [cbn in E; contradiction | discriminate].
  - rewrite <- IH. reflexivity.
Qed.

Lemma last_no_sep n : n <> [] -> no_sep n -> Path.is_sep (last n 0) = false.
Proof.
  unfold no_sep. induction n as [ | c n IH]; intros Hn H; [contradiction | ].
  cbn in H. apply andb_true_iff in H as [Hc Hr].
  destruct n as [ | c' n'].
  - cbn. apply negb_true_iff. exact Hc.
  - change (last (c :: c' :: n') 0) with (last (c' :: n') 0).
    apply IH; [discriminate | exact Hr].
Qed.

(** Normalizing a path that ends in a plain name keeps the name as its
    last component. *)
Lemma normalize_keeps_name x n :
  dir_prefix x -> plain_name n = true ->
  exists y, dir_prefix y /\ Path.normalize (x ++ n) = y ++ n.
Proof.
  intros Hx Hn.
  pose proof (plain_name_not_nil n Hn) as Hne.
  pose proof (plain_name_no_sep n Hn) as Hns.
  assert (Hsplit : exists pre, Path.split (x ++ n) = pre ++ [n]).
  { destruct Hx as [-> | [x' ->]].
    - exists []. cbn [app]. apply split_no_sep. exact Hns.
    - exists (Path.split x'). rewrite <- app_assoc. cbn [app].
      rewrite split_app_sep, (split_no_sep n Hns). reflexivity. }
  destruct Hsplit as [pre Hsplit].
  unfold Path.normalize.
  destruct (x ++ n) as [ | first rest] eqn:Exn.
  { destruct x; [cbn in Exn; contradiction | discriminate]. }
  rewrite <- Exn in Hsplit |- *.
  rewrite (last_app_not_nil x n 0 Hne), (last_no_sep n Hne Hns).
  unfold Path.normalizeString. rewrite Hsplit, fold_left_app. cbn [fold_left].
  rewrite (norm_step_plain _ _ _ Hn). cbn [rev]. rewrite join_snoc.
  set (stack := rev (fold_left _ pre [])).
  destruct stack as [ | seg segs] eqn:Estack.
  - destruct n as [ | c n']; [contradiction | ].
    exists (if Path.is_sep first then [SLASH] else []). split.
    + destruct (Path.is_sep first); [right; exists []; reflexivity | left; reflexivity].
    + rewrite app_nil_r. reflexivity.
  - rewrite <- Estack.
    destruct (join [SLASH] stack ++ [SLASH] ++ n) eqn:Ebody.
    { destruct (join [SLASH] stack); discriminate. }
    rewrite <- Ebody.
    exists ((if Path.is_sep first then [SLASH] else []) ++ join [SLASH] stack ++ [SLASH]).
    split.
    + right. exists ((if Path.is_sep first then [SLASH] else []) ++ join [SLASH] stack).
      rewrite <- app_assoc. reflexivity.
    + rewrite app_nil_r, <- !app_assoc. reflexivity.
Qed.

Lemma takeWhile_app_all {A} (p : A -> bool) a b :
  forallb p a = true -> Path.takeWhile p (a ++ b) = a ++ Path.takeWhile p b.
Proof.
  induction a as [ | c a IH]; cbn; intros H; [reflexivity | ].
  apply andb_true_iff in H as [Hc Ha]. rewrite Hc, (IH Ha). reflexivity.
Qed.

Lemma forallb_rev {A} (p : A -> bool) l :
  forallb p (rev l) = forallb p l.
Proof.
  induction l as [ | c l IH]; [reflexivity | ].
  cbn. rewrite forallb_app, IH. cbn. rewrite andb_true_r. apply andb_comm.
Qed.

Lemma basename_after_prefix y n :
  dir_prefix y -> plain_name n = true -> Path.basename (y ++ n) = n.
Proof.
  intros Hy Hn.
  pose proof (plain_name_not_nil n Hn) as Hne.
  pose proof (plain_name_no_sep n Hn) as Hns.
  unfold Path.basename, Path.last_component_rev. rewrite rev_app_distr.
  assert (Hrn : forallb (fun c => negb (Path.is_sep c)) (rev n) = true)
    by (rewrite forallb_rev; exact Hns).
  assert (Hdrop : Path.dropWhile Path.is_sep (rev n ++ rev y) = rev n ++ rev y).
  { destruct (rev n) as [ | c r] eqn:E.
    - apply (f_equal (@rev N)) in E. rewrite rev_involutive in E.
      contradiction.
    - cbn in Hrn |- *. apply andb_true_iff in Hrn as [Hc _].
      apply negb_true_iff in Hc. rewrite Hc. reflexivity. }
  rewrite Hdrop, (takeWhile_app_all _ _ _ Hrn).
  assert (Hy' : Path.takeWhile (fun c => negb (Path.is_sep c)) (rev y) = []).
  { destruct Hy as [-> | [y' ->]]; [reflexivity | ].
    rewrite rev_app_distr. reflexivity. }
  rewrite Hy', app_nil_r. apply rev_involutive.
Qed.

(** The path [scanDirectory] builds for an entry has the entry's name as
    its last component. *)
Lemma basename_join currentPath name :
  plain_name name = true ->
  Path.basename (Path.join [currentPath; name]) = name.
Proof.
  intros Hn. pose proof (plain_name_not_nil name Hn) as Hne.
  assert (E : exists x, dir_prefix x
                        /\ Path.join [currentPath; name] = Path.normalize (x ++ name)).
  { unfold Path.join. cbn [filter].
    destruct name as [ | c name']; [contradiction | ].
    destruct currentPath as [ | d cur'].
    - exists []. split; [left; reflexivity | reflexivity].
    - exists ((d :: cur') ++ [SLASH]). split.
      + right. eexists. reflexivity.
      + cbn [str_eqb negb]. cbn [join]. rewrite <- app_assoc. reflexivity. }
  destruct E as [x [Hx ->]].
  destruct (normalize_keeps_name x name Hx Hn) as [y [Hy ->]].
  apply basename_after_prefix; assumption.
Qed.


(** ** The scan *)

Lemma for_of_nil {A} (body : A -> M unit) : for_of [] body = ret tt.
Proof. reflexivity. Qed.

Lemma for_of_cons {A} (x : A) rest (body : A -> M unit) :
  for_of (x :: rest) body = (body x ;; for_of rest body).
Proof. reflexivity. Qed.

Lemma state_eta s : mkState (trace s) (pngFiles s) (uploadResults s) = s.
Proof. destruct s; reflexivity. Qed.

(** A loop whose body only appends to the log and to [pngFiles]. *)
Lemma for_of_appends {A} (body : A -> M unit)
    (ev : A -> list event) (fd : A -> list jsstring) (l : list A) :
  Forall (fun x => forall s,
            body x s = (Ret tt, mkState (trace s ++ ev x) (pngFiles s ++ fd x)
                                        (uploadResults s))) l ->
  forall s,
    for_of l body s
    = (Ret tt, mkState (trace s ++ flat_map ev l) (pngFiles s ++ flat_map fd l)
                       (uploadResults s)).
Proof.
  induction 1 as [ | x rest Hx _ IH]; intros s.
  - cbn. rewrite !app_nil_r, state_eta. reflexivity.
  - rewrite for_of_cons. unfold bind. rewrite Hx, IH. cbn.
    rewrite <- !app_assoc. reflexivity.
Qed.

Lemma scanDirectory_run d :
  forall currentPath s,
    scanDirectory currentPath d s
    = (Ret tt,
       mkState (trace s ++ scan_events currentPath d)
               (pngFiles s ++ found_under currentPath d)
               (uploadResults s)).
Proof.
  induction d as [ | | failure entries IH] using node_rect_nested;
    intros currentPath s.
  - cbn. unfold console_warn, emit. cbn.
    rewrite <- app_assoc, app_nil_r. reflexivity.
  - cbn. unfold console_warn, emit. cbn.
    rewrite <- app_assoc, app_nil_r. reflexivity.
  - destruct failure as [e|].
    + cbn. unfold console_warn, emit. cbn.
      rewrite <- app_assoc, app_nil_r. reflexivity.
    + cbn [scanDirectory found_under scan_events].
      unfold try_catch, bind at 1. cbn [emit].
      erewrite for_of_appends.
      * cbn. rewrite <- app_assoc. reflexivity.
      * eapply Forall_impl; [ | exact IH].
        intros [name entry] Hentry s'. cbn [snd] in Hentry.
        destruct entry as [ | | f es].
        -- unfold is_png_name.
           destruct (endsWith (toLowerCase name) (js ".png")); cbn;
             rewrite ?app_nil_r; try reflexivity.
           rewrite state_eta. reflexivity.
        -- cbn. rewrite !app_nil_r, state_eta. reflexivity.
        -- apply Hentry.
Qed.

Lemma findPngFiles_run w directoryPath s :
  findPngFiles w directoryPath s
  = (Ret (found_under directoryPath (nodeAt w directoryPath)),
     mkState (trace s ++ scan_events directoryPath (nodeAt w directoryPath))
             (found_under directoryPath (nodeAt w directoryPath))
             (uploadResults s)).
Proof.
  unfold findPngFiles, bind, new_pngFiles, get_pngFiles.
  rewrite scanDirectory_run. reflexivity.
Qed.

Lemma flat_map_ext_Forall {A B} (f g : A -> list B) l :
  Forall (fun x => f x = g x) l -> flat_map f l = flat_map g l.
Proof.
  induction 1 as [ | x l Hx _ IH]; [reflexivity | ].
  cbn. rewrite Hx, IH. reflexivity.
Qed.

Lemma filter_flat_map {A B} (p : B -> bool) (g : A -> list B) l :
  filter p (flat_map g l) = flat_map (fun x => filter p (g x)) l.
Proof.
  induction l as [ | x l IH]; [reflexivity | ].
  cbn. rewrite filter_app, IH. reflexivity.
Qed.

Lemma map_flat_map {A B C} (f : B -> C) (g : A -> list B) l :
  map f (flat_map g l) = flat_map (fun x => map f (g x)) l.
Proof.
  induction l as [ | x l IH]; [reflexivity | ].
  cbn. rewrite map_app, IH. reflexivity.
Qed.

(** In a tree whose directories can all be listed, the scan pushes the
    path of every regular file with a PNG name, in order. *)
Lemma found_under_listable d :
  forall currentPath,
    listable d = true ->
    found_under currentPath d = map fst (png_files_under currentPath d).
Proof.
  induction d as [ | | failure entries IH] using node_rect_nested;
    intros currentPath Hl; try reflexivity.
  destruct failure as [e | ]; [discriminate | ].
  unfold png_files_under. cbn [found_under files_under listable] in *.
  rewrite filter_flat_map, map_flat_map.
  apply flat_map_ext_Forall.
  rewrite forallb_forall in Hl. rewrite Forall_forall in IH |- *.
  intros [name entry] Hin. specialize (IH _ Hin). specialize (Hl _ Hin).
  cbn [snd] in *. destruct entry as [ | | f es].
  - cbn. destruct (is_png_name name); reflexivity.
  - reflexivity.
  - apply IH. exact Hl.
Qed.

(** Whatever the tree, the scan pushes nothing but paths of regular files
    with a PNG name. *)
Lemma found_under_sound d :
  forall currentPath p,
    In p (found_under currentPath d) ->
    In p (map fst (png_files_under currentPath d)).
Proof.
  induction d as [ | | failure entries IH] using node_rect_nested;
    intros currentPath p Hin; try contradiction.
  destruct failure as [e | ]; [contradiction | ].
  unfold png_files_under in *. cbn [found_under files_under] in *.
  rewrite filter_flat_map, map_flat_map.
  apply in_flat_map in Hin as [[name entry] [Hentry Hin]].
  apply in_flat_map. exists (name, entry). split; [exact Hentry | ].
  rewrite Forall_forall in IH. specialize (IH _ Hentry). cbn [snd] in IH.
  destruct entry as [ | | f es].
  - cbn. destruct (is_png_name name); [exact Hin | contradiction].
  - contradiction.
  - apply IH. exact Hin.
Qed.

(** With names as [readdir] gives them, the last component of the path of
    a file is its name. *)
Lemma files_under_basename d :
  forall currentPath p name,
    plain_names d = true ->
    In (p, name) (files_under currentPath d) ->
    Path.basename p = name.
Proof.
  induction d as [ | | failure entries IH] using node_rect_nested;
    intros currentPath p name Hplain Hin; try contradiction.
  cbn [files_under plain_names] in *.
  apply in_flat_map in Hin as [[name' entry] [Hentry Hin]].
  rewrite forallb_forall in Hplain. specialize (Hplain _ Hentry).
  cbn [fst snd] in Hplain. apply andb_true_iff in Hplain as [Hname Hsub].
  rewrite Forall_forall in IH. specialize (IH _ Hentry). cbn [snd] in IH.
  destruct entry as [ | | f es].
  - destruct Hin as [[= <- <-] | []].
    apply basename_join. exact Hname.
  - contradiction.
  - eapply IH; eassumption.
Qed.

Lemma skipn_length_app {A} (a b : list A) : skipn (length a) (a ++ b) = b.
Proof. induction a as [ | x a IH]; [reflexivity | exact IH]. Qed.

Lemma events_of_log {A} (m : M A) s out evs pf ur :
  m s = (out, mkState (trace s ++ evs) pf ur) -> events_of m s = evs.
Proof.
  intros H. unfold events_of. rewrite H. cbn. apply skipn_length_app.
Qed.

Lemma nodeAt_found w path d : lookup w path = Some d -> nodeAt w path = d.
Proof. unfold nodeAt. intros ->. reflexivity. Qed.


(** ** One upload *)

Ltac unfold_monad :=
  unfold try_catch, bind, emit, throw, ret, lift, console_error, console_log,
    fs_readFile, Date_now, do_fetch, response_text, response_json, log_to;
  cbn.

Lemma uploadImage_run JSON_parse w this filePath s :
  uploadImage JSON_parse w this filePath s
  = let read := readFile w (trace s) filePath in
    let ev_read := EvReadFile filePath read in
    match read with
    | Err e => (Thrown e, log_to s [ev_read; upload_failure_line filePath e])
    | Ok fileBuffer =>
        match contentTypeOf (toLowerCase (Path.extname filePath)) with
        | Err e => (Thrown e, log_to s [ev_read; upload_failure_line filePath e])
        | Ok contentType =>
            let ms := now w (trace s ++ [ev_read]) in
            let boundary := boundaryOf ms in
            let form :=
              formData boundary (Path.basename filePath) contentType
                       fileBuffer in
            let url := baseUrl this ++ js "/api/v1/media" in
            let req := requestOf this boundary form in
            let answer := fetch w (trace s ++ [ev_read; EvNow ms]) url req in
            let ev_fetch := EvFetch url req answer in
            match answer with
            | Err e =>
                (Thrown e,
                 log_to s [ev_read; EvNow ms; ev_fetch;
                           upload_failure_line filePath e])
            | Ok response =>
                match response_result JSON_parse response with
                | Ok v => (Ret v, log_to s [ev_read; EvNow ms; ev_fetch])
                | Err e =>
                    (Thrown e,
                     log_to s [ev_read; EvNow ms; ev_fetch;
                               upload_failure_line filePath e])
                end
            end
        end
    end.
Proof.
  unfold uploadImage, response_result, upload_failure_line. unfold_monad.
  destruct (readFile w (trace s) filePath) as [fileBuffer | e]; cbn.
  2: { rewrite <- app_assoc. reflexivity. }
  destruct (contentTypeOf _) as [contentType | e]; cbn.
  2: { rewrite <- app_assoc. reflexivity. }
  rewrite <- !app_assoc. cbn.
  destruct (fetch w _ _ _) as [response | e]; cbn.
  2: { rewrite <- !app_assoc. reflexivity. }
  destruct (ok response); cbn.
  - destruct (text response) as [t | e]; cbn.
    2: { rewrite <- !app_assoc. reflexivity. }
    destruct (JSON_parse t) as [result | e]; cbn.
    2: { rewrite <- !app_assoc. reflexivity. }
    destruct (get_url result) as [v | e]; cbn.
    + reflexivity.
    + rewrite <- !app_assoc. reflexivity.
  - destruct (text response) as [t | e]; cbn; rewrite <- !app_assoc; reflexivity.
Qed.

Lemma Buffer_binary_roundtrip (b : Buffer) :
  Buffer_from_binary (Buffer_toString_binary b) = b.
Proof.
  unfold Buffer_from_binary, Buffer_toString_binary. rewrite map_map.
  rewrite <- (map_id b) at 2. apply map_ext.
  intros x. destruct x; reflexivity.
Qed.

Lemma Buffer_from_binary_app a b :
  Buffer_from_binary (a ++ b) = Buffer_from_binary a ++ Buffer_from_binary b.
Proof. apply map_app. Qed.

Lemma Buffer_from_binary_length s :
  length (Buffer_from_binary s) = Buffer_byteLength_binary s.
Proof. apply length_map. Qed.

(** A Latin-1 string is written byte for byte. *)
Lemma Buffer_latin1_roundtrip (s : jsstring) :
  latin1 s -> Buffer_toString_binary (Buffer_from_binary s) = s.
Proof.
  unfold Buffer_from_binary, Buffer_toString_binary, latin1.
  induction 1 as [ | c s Hc _ IH]; [reflexivity | ].
  cbn [map]. rewrite IH. f_equal.
  unfold low_byte.
  assert (Hland : N.land c 255 = c).
  { change 255 with (N.ones 8). rewrite N.land_ones.
    apply N.mod_small. exact Hc. }
  rewrite Hland.
  destruct (Byte.of_N c) as [b | ] eqn:E.
  - apply Byte.to_of_N. exact E.
  - apply Byte.of_N_None_iff in E. lia.
Qed.

(** The form of lines 35-42 is its head, the file content and its tail. *)
Lemma formData_pieces boundary fileName contentType fileBuffer :
  formData boundary fileName contentType fileBuffer
  = form_head boundary fileName contentType
    ++ Buffer_toString_binary fileBuffer ++ form_tail boundary.
Proof.
  unfold formData, form_head, form_tail. cbn [join].
  rewrite <- !app_assoc. reflexivity.
Qed.

(** It is the payload with the file as its single part. *)
Lemma formData_single_part boundary fileName contentType fileBuffer :
  formData boundary fileName contentType fileBuffer
  = multipart_form_data boundary
      [mkPart (js "file") fileName contentType
              (Buffer_toString_binary fileBuffer)].
Proof.
  unfold formData, multipart_form_data, render_part.
  cbn [join map concat part_name part_filename part_contentType part_content].
  rewrite <- !app_assoc. reflexivity.
Qed.

Lemma contains_here (pre sub post s : jsstring) :
  s = pre ++ sub ++ post -> contains sub s.
Proof. intros ->. exists pre, post. reflexivity. Qed.

Lemma formData_content_type_line boundary fileName contentType fileBuffer :
  contains (CRLF ++ js "Content-Type: " ++ contentType ++ CRLF)
           (formData boundary fileName contentType fileBuffer).
Proof.
  unfold formData. cbn [join].
  eapply contains_here with
    (pre := js "--" ++ boundary ++ CRLF
            ++ js "Content-Disposition: form-data; name=" ++ [QUOTE] ++ js "file"
            ++ [QUOTE] ++ js "; filename=" ++ [QUOTE] ++ fileName ++ [QUOTE]).
  rewrite <- !app_assoc. reflexivity.
Qed.

Lemma formData_filename boundary fileName contentType fileBuffer :
  contains (js "filename=" ++ [QUOTE] ++ fileName ++ [QUOTE])
           (formData boundary fileName contentType fileBuffer).
Proof.
  unfold formData. cbn [join].
  eapply contains_here with
    (pre := js "--" ++ boundary ++ CRLF
            ++ js "Content-Disposition: form-data; name=" ++ [QUOTE] ++ js "file"
            ++ [QUOTE] ++ js "; ").
  change (js "; filename=") with (js "; " ++ js "filename=").
  rewrite <- !app_assoc. reflexivity.
Qed.

Lemma formData_part_name boundary fileName contentType fileBuffer :
  contains (js "name=" ++ [QUOTE] ++ js "file" ++ [QUOTE])
           (formData boundary fileName contentType fileBuffer).
Proof.
  unfold formData. cbn [join].
  eapply contains_here with
    (pre := js "--" ++ boundary ++ CRLF
            ++ js "Content-Disposition: form-data; ").
  change (js "Content-Disposition: form-data; name=")
    with (js "Content-Disposition: form-data; " ++ js "name=").
  rewrite <- !app_assoc. reflexivity.
Qed.

(** The one request of an upload, and what the upload makes of the
    answer. *)
Lemma uploadImage_fetch_event JSON_parse w this filePath s url req answer :
  In (EvFetch url req answer)
     (events_of (uploadImage JSON_parse w this filePath) s) ->
  exists fileBuffer contentType ms,
    readFile w (trace s) filePath = Ok fileBuffer
    /\ contentTypeOf (toLowerCase (Path.extname filePath)) = Ok contentType
    /\ url = baseUrl this ++ js "/api/v1/media"
    /\ req = requestOf this (boundaryOf ms)
               (formData (boundaryOf ms) (Path.basename filePath)
                         contentType fileBuffer)
    /\ fst (uploadImage JSON_parse w this filePath s)
       = match answer with
         | Err e => Thrown e
         | Ok response =>
             match response_result JSON_parse response with
             | Ok v => Ret v
             | Err e => Thrown e
             end
         end.
Proof.
  unfold events_of. rewrite uploadImage_run. cbv zeta.
  unfold log_to, upload_failure_line.
  destruct (readFile w (trace s) filePath) as [fileBuffer | e] eqn:Eread.
  2: { cbn [snd trace]. rewrite skipn_length_app. cbn [In].
       intros [H | [H | []]]; discriminate H. }
  destruct (contentTypeOf _) as [contentType | e] eqn:Etype.
  2: { cbn [snd trace]. rewrite skipn_length_app. cbn [In].
       intros [H | [H | []]]; discriminate H. }
  set (ms := now w _).
  destruct (fetch w _ _ _) as [response | e] eqn:Efetch.
  - destruct (response_result JSON_parse response) as [v | e] eqn:Eresult;
      cbn [snd trace fst]; rewrite skipn_length_app; cbn [In];
      intros H; decompose [or] H; clear H;
      try discriminate; try contradiction;
      match goal with
      | H : EvFetch _ _ _ = EvFetch _ _ _ |- _ => injection H as <- <- <-
      end;
      exists fileBuffer, contentType, ms; rewrite Eresult; repeat split.
  - cbn [snd trace fst]. rewrite skipn_length_app. cbn [In].
    intros H; decompose [or] H; clear H;
      try discriminate; try contradiction.
    match goal with
    | H : EvFetch _ _ _ = EvFetch _ _ _ |- _ => injection H as <- <- <-
    end.
    exists fileBuffer, contentType, ms. repeat split.
Qed.

Lemma contentTypeOf_cases (fileExtension : jsstring) :
  (fileExtension = js ".png"
   /\ contentTypeOf fileExtension = Ok (js "image/png"))
  \/ ((fileExtension = js ".jpg" \/ fileExtension = js ".jpeg")
      /\ contentTypeOf fileExtension = Ok (js "image/jpeg"))
  \/ (fileExtension <> js ".png" /\ fileExtension <> js ".jpg"
      /\ fileExtension <> js ".jpeg"
      /\ contentTypeOf fileExtension
         = Err (Error (js "Unsupported file type: " ++ fileExtension))).
Proof.
  unfold contentTypeOf.
  destruct (str_eqb fileExtension (js ".png")) eqn:Epng.
  { left. apply str_eqb_eq in Epng. split; [exact Epng | reflexivity]. }
  destruct (str_eqb fileExtension (js ".jpg")) eqn:Ejpg.
  { right. left. apply str_eqb_eq in Ejpg. split; [left; exact Ejpg | reflexivity]. }
  destruct (str_eqb fileExtension (js ".jpeg")) eqn:Ejpeg.
  { right. left. apply str_eqb_eq in Ejpeg.
    split; [right; exact Ejpeg | reflexivity]. }
  right. right. cbn [orb].
  repeat split; try reflexivity; intros ->;
    rewrite str_eqb_refl in *; discriminate.
Qed.

(** ** The batch *)

Section Batch.
Variable JSON_parse : jsstring -> res jsval.
Variable path_relative : jsstring -> jsstring -> jsstring.
Variable w : World.
Variable this : MicroCMSUploader.
Variable directoryPath : jsstring.

Lemma uploadImage_never_exits filePath s code s' :
  uploadImage JSON_parse w this filePath s <> (Exited code, s').
Proof.
  rewrite uploadImage_run. cbv zeta.
  destruct (readFile _ _ _); [ | discriminate].
  destruct (contentTypeOf _); [ | discriminate].
  destruct (fetch _ _ _ _); [ | discriminate].
  destruct (response_result _ _); discriminate.
Qed.

Lemma uploadOne_run filePath s :
  uploadOne JSON_parse path_relative w this directoryPath filePath s
  = let fileName := Path.basename filePath in
    let relativePath := path_relative directoryPath filePath in
    match uploadImage JSON_parse w this filePath s with
    | (Ret url, s1) =>
        match ToString url with
        | Ok shown =>
            (Ret tt, push_to s1 [success_line relativePath shown]
                       [Success fileName relativePath url])
        | Err e =>
            (Ret tt, push_to s1 [failure_line relativePath (message e)]
                       [Success fileName relativePath url;
                        Failure fileName relativePath (message e)])
        end
    | (Thrown e, s1) =>
        (Ret tt, push_to s1 [failure_line relativePath (message e)]
                   [Failure fileName relativePath (message e)])
    | (Exited code, s1) => (Exited code, s1)
    end.
Proof.
  unfold uploadOne, push_to, success_line, failure_line.
  unfold try_catch, bind.
  destruct (uploadImage JSON_parse w this filePath s) as [[url | e | code] s1];
    cbn; try reflexivity.
  destruct (ToString url) as [shown | e]; cbn.
  - reflexivity.
  - rewrite <- app_assoc. reflexivity.
Qed.

Lemma uploadImage_effect filePath s :
  exists out evs,
    uploadImage JSON_parse w this filePath s = (out, log_to s evs)
    /\ read_paths evs = [filePath]
    /\ (forall code, out <> Exited code)
    /\ (forall url, out = Ret url -> returned JSON_parse w url).
Proof.
  rewrite uploadImage_run. cbv zeta. unfold returned.
  destruct (readFile _ _ _) as [fileBuffer | e].
  2: { do 2 eexists. split; [reflexivity | ].
       repeat split; try discriminate; reflexivity. }
  destruct (contentTypeOf _) as [contentType | e].
  2: { do 2 eexists. split; [reflexivity | ].
       repeat split; try discriminate; reflexivity. }
  destruct (fetch _ _ _ _) as [response | e] eqn:Efetch.
  2: { do 2 eexists. split; [reflexivity | ].
       repeat split; try discriminate; reflexivity. }
  destruct (response_result JSON_parse response) as [v | e] eqn:Eresult.
  2: { do 2 eexists. split; [reflexivity | ].
       repeat split; try discriminate; reflexivity. }
  do 2 eexists. split; [reflexivity | ].
  repeat split; try discriminate; try reflexivity.
  intros url [= <-]. do 4 eexists. split; [exact Efetch | exact Eresult].
Qed.

Lemma read_paths_app a b : read_paths (a ++ b) = read_paths a ++ read_paths b.
Proof. apply flat_map_app. Qed.

Lemma uploadOne_effect filePath s :
  exists group evs,
    uploadOne JSON_parse path_relative w this directoryPath filePath s
    = (Ret tt, push_to s evs group)
    /\ recorded JSON_parse path_relative w directoryPath filePath group
    /\ read_paths evs = [filePath].
Proof.
  rewrite uploadOne_run. cbv zeta.
  destruct (uploadImage_effect filePath s)
    as (out & evs & -> & Hread & Hexit & Hret).
  destruct out as [url | e | code].
  - destruct (ToString url) as [shown | e] eqn:Eshown.
    + eexists _, (evs ++ _). split.
      * unfold push_to, log_to. cbn. rewrite <- app_assoc. reflexivity.
      * split; [eapply recorded_success; eauto | ].
        rewrite read_paths_app, Hread. reflexivity.
    + eexists _, (evs ++ _). split.
      * unfold push_to, log_to. cbn. rewrite <- app_assoc. reflexivity.
      * split; [eapply recorded_both; eauto | ].
        rewrite read_paths_app, Hread. reflexivity.
  - eexists _, (evs ++ _). split.
    + unfold push_to, log_to. cbn. rewrite <- app_assoc. reflexivity.
    + split; [apply recorded_failure | ].
      rewrite read_paths_app, Hread. reflexivity.
  - exfalso. exact (Hexit code eq_refl).
Qed.

(** The loop of lines 104-126 never stops early: every file is read, in
    order, and leaves its group of entries. *)
Lemma upload_loop_run files :
  forall s,
  exists groups evs,
    for_of files (uploadOne JSON_parse path_relative w this directoryPath) s
    = (Ret tt, push_to s evs (concat groups))
    /\ Forall2 (recorded JSON_parse path_relative w directoryPath) files groups
    /\ read_paths evs = files.
Proof.
  induction files as [ | filePath rest IH]; intros s.
  - exists [], []. split; [ | split; [constructor | reflexivity]].
    cbn. unfold push_to. rewrite !app_nil_r, state_eta. reflexivity.
  - rewrite for_of_cons. unfold bind.
    destruct (uploadOne_effect filePath s) as (group & evs & -> & Hrec & Hread).
    destruct (IH (push_to s evs group)) as (groups & evs' & -> & Hall & Hread').
    exists (group :: groups), (evs ++ evs'). split; [ | split].
    + unfold push_to. cbn. rewrite <- !app_assoc. reflexivity.
    + constructor; assumption.
    + rewrite read_paths_app, Hread, Hread'. reflexivity.
Qed.

Lemma uploadDirectory_run s :
  let found := found_under directoryPath (nodeAt w directoryPath) in
  exists groups line evs,
    uploadDirectory JSON_parse path_relative w this directoryPath s
    = (Ret (concat groups),
       mkState (trace s ++ scan_events directoryPath (nodeAt w directoryPath)
                  ++ EvConsole Log [line] :: evs)
               found
               (match found with [] => uploadResults s | _ => concat groups end))
    /\ Forall2 (recorded JSON_parse path_relative w directoryPath) found groups
    /\ read_paths evs = found.
Proof.
  intros found. unfold uploadDirectory, try_catch, bind at 1.
  rewrite findPngFiles_run. fold found.
  clearbody found.
  destruct found as [ | filePath rest] eqn:Efound.
  - exists [], (js "No PNG files found in directory and subdirectories"), [].
    split; [ | split; [constructor | reflexivity]].
    cbn. unfold bind, console_log, emit, ret. cbn.
    rewrite <- app_assoc. reflexivity.
  - rewrite <- Efound.
    assert (Hlen : (length found =? 0)%nat = false)
      by (rewrite Efound; reflexivity).
    rewrite Hlen.
    unfold bind, console_log, emit, new_uploadResults, get_uploadResults.
    cbn [trace pngFiles uploadResults].
    match goal with
    | |- context [for_of found ?body ?st] =>
        destruct (upload_loop_run found st) as (groups & evs & -> & Hall & Hread)
    end.
    exists groups, (js "Found " ++ dec_nat (length found) ++ js " PNG files to upload"), evs.
    split; [ | split; assumption].
    unfold push_to. cbn. rewrite <- !app_assoc. cbn.
    rewrite Efound. reflexivity.
Qed.
End Batch.

(** ** The entry point *)

Section Main.
Variable JSON_stringify : list UploadResult -> list UploadResult -> nat -> jsstring.
Variable w : World.
Variable batch : MicroCMSUploader -> jsstring -> M (list UploadResult).

Lemma main_without_credentials :
  credentials w = false ->
  run (main_with JSON_stringify w batch) = (1%Z, [credentials_error; EvExit 1]).
Proof.
  unfold credentials, run, main_with. intros H.
  apply negb_false_iff in H. unfold bind at 1. rewrite H.
  reflexivity.
Qed.

Lemma main_without_directory :
  credentials w = true -> lookup w screenshotsPath = None ->
  run (main_with JSON_stringify w batch) = (0%Z, directory_missing).
Proof.
  unfold credentials, run, main_with. intros H Hdir.
  apply negb_true_iff in H. unfold bind at 1. rewrite H.
  unfold ret at 1. unfold try_catch at 1. unfold bind at 1.
  unfold try_catch at 1. unfold fs_access. rewrite Hdir.
  reflexivity.
Qed.

Lemma failed_count (results : list UploadResult) :
  (0 <? length (filter (fun r => negb (success r)) results))%nat
  = negb (forallb success results).
Proof.
  induction results as [ | r rest IH]; [reflexivity | ].
  cbn. destruct (success r); cbn; [exact IH | reflexivity].
Qed.

Lemma main_exit_code :
  credentials w = true -> lookup w screenshotsPath <> None ->
  fst (run (main_with JSON_stringify w batch))
  = match fst (batch (the_uploader w) screenshotsPath before_batch) with
    | Ret results => if forallb success results then 0%Z else 1%Z
    | Thrown _ => 1%Z
    | Exited code => code
    end.
Proof.
  unfold credentials, run, main_with, the_uploader. intros H Hdir.
  apply negb_true_iff in H. unfold bind at 1. rewrite H.
  unfold ret at 1. unfold try_catch at 1. unfold bind at 1.
  unfold try_catch at 1. unfold fs_access.
  destruct (lookup w screenshotsPath) as [d | ]; [ | contradiction].
  unfold emit at 1. cbn [initial trace pngFiles uploadResults app].
  unfold bind at 1. unfold console_log at 1, emit at 1.
  cbn [trace pngFiles uploadResults app].
  unfold bind at 1. fold before_batch.
  destruct (batch _ _ before_batch) as [[results | e | code] s1];
    cbn [fst]; try reflexivity.
  unfold bind, console_log, emit. cbn [trace pngFiles uploadResults].
  rewrite failed_count.
  destruct (env w (js "GITHUB_ACTIONS")) as [v | ];
    [destruct (str_eqb v (js "true")) | ];
    destruct (forallb success results); reflexivity.
Qed.
End Main.

Lemma read_paths_scan d : forall p, read_paths (scan_events p d) = [].
Proof.
  induction d as [ | | failure entries IH] using node_rect_nested;
    intros p; try reflexivity.
  destruct failure as [e | ]; [reflexivity | ].
  cbn [scan_events].
  change (read_paths (EvReaddir p None :: ?l)) with (read_paths l).
  induction IH as [ | [name entry] rest Hentry _ IHrest]; [reflexivity | ].
  cbn [flat_map]. rewrite read_paths_app, IHrest, app_nil_r.
  destruct entry; try reflexivity.
  apply Hentry.
Qed.

Lemma uploadDirectory_never_exits JSON_parse path_relative w this
    directoryPath s code s' :
  uploadDirectory JSON_parse path_relative w this directoryPath s
  <> (Exited code, s').
Proof.
  destruct (uploadDirectory_run JSON_parse path_relative w this directoryPath s)
    as (groups & line & evs & -> & _).
  discriminate.
Qed.

Lemma existsb_failed (results : list UploadResult) :
  existsb (fun r => negb (success r)) results = negb (forallb success results).
Proof.
  induction results as [ | r rest IH]; [reflexivity | ].
  cbn. rewrite IH. destruct (success r); reflexivity.
Qed.

(** When every URL the server answers with can be printed, the groups of
    the loop are single entries. *)
Lemma recorded_single JSON_parse path_relative w directoryPath files groups :
  printable_urls JSON_parse w ->
  Forall2 (recorded JSON_parse path_relative w directoryPath) files groups ->
  Forall2 (entry_of path_relative directoryPath) files (concat groups).
Proof.
  intros Hprint. induction 1 as [ | filePath group files groups Hrec _ IH].
  - constructor.
  - destruct Hrec as [url shown _ _ | msg | url e Hret Herr].
    + cbn. constructor; [left; eexists; reflexivity | exact IH].
    + cbn. constructor; [right; eexists; reflexivity | exact IH].
    + destruct (Hprint url Hret) as [shown Hshown]. congruence.
Qed.

(** The invariant of the batch for a server whose URLs can be printed:
    one entry per file found, in the order found, and every file is read,
    in that order. *)
Lemma uploadDirectory_one_entry_per_file JSON_parse path_relative w this
    directoryPath s :
  printable_urls JSON_parse w ->
  exists results s',
    uploadDirectory JSON_parse path_relative w this directoryPath s
    = (Ret results, s')
    /\ Forall2 (entry_of path_relative directoryPath)
               (found_under directoryPath (nodeAt w directoryPath)) results
    /\ read_paths (events_of (uploadDirectory JSON_parse path_relative w this
                                directoryPath) s)
       = found_under directoryPath (nodeAt w directoryPath).
Proof.
  intros Hprint.
  destruct (uploadDirectory_run JSON_parse path_relative w this directoryPath s)
    as (groups & line & evs & Hrun & Hrec & Hread).
  do 2 eexists. split; [exact Hrun | ].
  split; [apply (recorded_single JSON_parse path_relative w); assumption | ].
  rewrite (events_of_log _ _ _ _ _ _ Hrun).
  rewrite read_paths_app, read_paths_scan. cbn [app].
  change (read_paths (EvConsole Log [line] :: evs)) with (read_paths evs).
  exact Hread.
Qed.

(** ** The claims about one upload *)

Lemma ok_iff_2xx (r : Response) : ok r = true <-> 200 <= status r <= 299.
Proof.
  unfold ok. rewrite andb_true_iff, !N.leb_le. reflexivity.
Qed.

(** C4.  Whenever an upload receives a response: with a status outside
    200-299 the upload fails with an error whose message contains the
    status code and the text of the body; with a status inside 200-299 the
    upload parses the body as JSON and returns the [url] property of the
    parsed value (a body that does not parse makes the upload fail with
    the parser's error). *)
Theorem uploadImage_response JSON_parse w this filePath s url req response :
  In (EvFetch url req (Ok response))
     (events_of (uploadImage JSON_parse w this filePath) s) ->
  (~ (200 <= status response <= 299) ->
   forall errorText, text response = Ok errorText ->
     exists msg,
       fst (uploadImage JSON_parse w this filePath s) = Thrown (Error msg)
       /\ contains (dec_N (status response)) msg
       /\ contains errorText msg)
  /\ (200 <= status response <= 299 ->
      forall t, text response = Ok t ->
        (forall e, JSON_parse t = Err e ->
           fst (uploadImage JSON_parse w this filePath s) = Thrown e)
        /\ (forall props, JSON_parse t = Ok (JObj props) ->
              fst (uploadImage JSON_parse w this filePath s)
              = Ret (match own_property props (js "url") with
                     | Some v => v
                     | None => JUndefined
                     end))).
Proof.
  intros Hin.
  destruct (uploadImage_fetch_event _ _ _ _ _ _ _ _ Hin)
    as (fileBuffer & contentType & ms & _ & _ & _ & _ & ->).
  unfold response_result. split.
  - intros Hstatus errorText Htext.
    rewrite <- ok_iff_2xx in Hstatus. apply not_true_is_false in Hstatus.
    rewrite Hstatus, Htext. cbn [negb].
    eexists. split; [reflexivity | ]. split.
    + eapply contains_here with (pre := js "Upload failed: "). reflexivity.
    + eapply contains_here with
        (pre := js "Upload failed: " ++ dec_N (status response) ++ js " "
                ++ statusText response ++ js " - ") (post := []).
      rewrite <- !app_assoc, app_nil_r. reflexivity.
  - intros Hstatus t Htext. apply ok_iff_2xx in Hstatus.
    rewrite Hstatus, Htext. cbn [negb]. split.
    + intros e ->. reflexivity.
    + intros props ->. unfold get_url.
      destruct (own_property props (js "url")); reflexivity.
Qed.

Lemma uploadImage_response_witness :
  exists msg,
    fst (uploadImage Sample.JSON_parse Sample.w_500 Sample.uploader
           (js "/tmp/playwright-mcp-output/a.png") initial)
    = Thrown (Error msg)
    /\ contains (dec_N 500) msg
    /\ contains (js "boom") msg.
Proof.
  assert (Hin :
    In (EvFetch
          (baseUrl Sample.uploader ++ js "/api/v1/media")
          (requestOf Sample.uploader (boundaryOf 1700000000000)
             (formData (boundaryOf 1700000000000) (js "a.png")
                       (js "image/png") Sample.png_bytes))
          (Ok (mkResponse 500 (js "Internal Server Error") (Ok (js "boom")))))
       (events_of (uploadImage Sample.JSON_parse Sample.w_500 Sample.uploader
                     (js "/tmp/playwright-mcp-output/a.png")) initial)).
  { vm_compute. right. right. left. reflexivity. }
  destruct (uploadImage_response _ _ _ _ _ _ _ _ Hin) as [Hfail _].
  apply (Hfail ltac:(cbn; lia) (js "boom") eq_refl).
Defined.

(** C6.  The content type of an upload is decided by the lowercased
    extension of the path.  Once the file has been read, an extension
    [.png] makes the upload send its one request with the part typed
    [image/png], and [.jpg] or [.jpeg] with the part typed [image/jpeg].
    With any other extension no request is sent and the clock is not
    read: the upload fails, and (the file having been read) with the
    error [Unsupported file type: ] followed by the lowered extension,
    which for an extension of ASCII characters is the one computed
    here. *)
Theorem uploadImage_content_type JSON_parse w this filePath s :
  let fileExtension := toLowerCase (Path.extname filePath) in
  let upload := uploadImage JSON_parse w this filePath in
  let sends (fileBuffer : Buffer) (contentType : jsstring) :=
    exists ms answer rest,
      events_of upload s
      = EvReadFile filePath (Ok fileBuffer) :: EvNow ms
        :: EvFetch (baseUrl this ++ js "/api/v1/media")
             (requestOf this (boundaryOf ms)
                (formData (boundaryOf ms) (Path.basename filePath)
                          contentType fileBuffer))
             answer
        :: rest
      /\ filter is_fetch rest = [] in
  (forall fileBuffer,
     readFile w (trace s) filePath = Ok fileBuffer ->
     (fileExtension = js ".png" -> sends fileBuffer (js "image/png"))
     /\ (fileExtension = js ".jpg" \/ fileExtension = js ".jpeg" ->
         sends fileBuffer (js "image/jpeg")))
  /\ (fileExtension <> js ".png" -> fileExtension <> js ".jpg" ->
      fileExtension <> js ".jpeg" ->
      filter is_upload_io (events_of upload s)
      = [EvReadFile filePath (readFile w (trace s) filePath)]
      /\ (exists e, fst (upload s) = Thrown e)
      /\ (forall fileBuffer,
            readFile w (trace s) filePath = Ok fileBuffer ->
            exists shown,
              fst (upload s)
              = Thrown (Error (js "Unsupported file type: " ++ shown))
              /\ (ascii_only (Path.extname filePath) ->
                  shown = fileExtension))).
Proof.
  intros fileExtension upload sends. subst fileExtension upload sends.
  split.
  - intros fileBuffer Hread.
    assert (Hsends : forall contentType,
      contentTypeOf (toLowerCase (Path.extname filePath)) = Ok contentType ->
      exists ms answer rest,
        events_of (uploadImage JSON_parse w this filePath) s
        = EvReadFile filePath (Ok fileBuffer) :: EvNow ms
          :: EvFetch (baseUrl this ++ js "/api/v1/media")
               (requestOf this (boundaryOf ms)
                  (formData (boundaryOf ms) (Path.basename filePath)
                            contentType fileBuffer))
               answer
          :: rest
        /\ filter is_fetch rest = []).
    { intros contentType Htype. unfold events_of.
      rewrite uploadImage_run. cbv zeta. rewrite Hread, Htype.
      destruct (fetch w _ _ _) as [response | e];
        [destruct (response_result JSON_parse response) | ];
        cbn [snd log_to trace]; rewrite skipn_length_app;
        do 3 eexists; split; reflexivity. }
    split.
    + intros Hext. apply Hsends. rewrite Hext. reflexivity.
    + intros [Hext | Hext]; apply Hsends; rewrite Hext; reflexivity.
  - intros Hpng Hjpg Hjpeg.
    destruct (contentTypeOf_cases (toLowerCase (Path.extname filePath)))
      as [[H _] | [[[H | H] _] | (_ & _ & _ & Htype)]]; try contradiction.
    unfold events_of. rewrite uploadImage_run. cbv zeta. rewrite Htype.
    destruct (readFile w (trace s) filePath) as [fileBuffer | e];
      cbn [snd fst log_to trace]; rewrite skipn_length_app.
    + split; [reflexivity | split; [eexists; reflexivity | ]].
      intros fileBuffer' _. eexists. split; reflexivity.
    + split; [reflexivity | split; [eexists; reflexivity | ]].
      intros fileBuffer' H. discriminate H.
Qed.

Lemma uploadImage_content_type_witness :
  (exists ms answer rest,
     events_of (uploadImage Sample.JSON_parse More.w_mixed Sample.uploader
                  (js "/tmp/playwright-mcp-output/a.PNG")) initial
     = EvReadFile (js "/tmp/playwright-mcp-output/a.PNG") (Ok Sample.png_bytes)
       :: EvNow ms
       :: EvFetch (baseUrl Sample.uploader ++ js "/api/v1/media")
            (requestOf Sample.uploader (boundaryOf ms)
               (formData (boundaryOf ms)
                  (Path.basename (js "/tmp/playwright-mcp-output/a.PNG"))
                  (js "image/png") Sample.png_bytes))
            answer
       :: rest
     /\ filter is_fetch rest = [])
  /\ (exists ms answer rest,
        events_of (uploadImage Sample.JSON_parse More.w_mixed Sample.uploader
                     (js "/tmp/playwright-mcp-output/photo.jpeg")) initial
        = EvReadFile (js "/tmp/playwright-mcp-output/photo.jpeg")
            (Ok Sample.png_bytes)
          :: EvNow ms
          :: EvFetch (baseUrl Sample.uploader ++ js "/api/v1/media")
               (requestOf Sample.uploader (boundaryOf ms)
                  (formData (boundaryOf ms)
                     (Path.basename (js "/tmp/playwright-mcp-output/photo.jpeg"))
                     (js "image/jpeg") Sample.png_bytes))
               answer
          :: rest
        /\ filter is_fetch rest = [])
  /\ filter is_upload_io
       (events_of (uploadImage Sample.JSON_parse More.w_mixed Sample.uploader
                     (js "/tmp/playwright-mcp-output/movie.GIF")) initial)
     = [EvReadFile (js "/tmp/playwright-mcp-output/movie.GIF")
          (Ok Sample.png_bytes)]
  /\ fst (uploadImage Sample.JSON_parse More.w_mixed Sample.uploader
            (js "/tmp/playwright-mcp-output/movie.GIF") initial)
     = Thrown (Error (js "Unsupported file type: .gif")).
Proof.
  split; [ | split].
  - destruct (uploadImage_content_type Sample.JSON_parse More.w_mixed
                Sample.uploader (js "/tmp/playwright-mcp-output/a.PNG")
                initial) as [Hsent _].
    destruct (Hsent Sample.png_bytes eq_refl) as [Hpng _].
    apply Hpng. reflexivity.
  - destruct (uploadImage_content_type Sample.JSON_parse More.w_mixed
                Sample.uploader (js "/tmp/playwright-mcp-output/photo.jpeg")
                initial) as [Hsent _].
    destruct (Hsent Sample.png_bytes eq_refl) as [_ Hjpeg].
    apply Hjpeg. right. reflexivity.
  - destruct (uploadImage_content_type Sample.JSON_parse More.w_mixed
                Sample.uploader (js "/tmp/playwright-mcp-output/movie.GIF")
                initial) as [_ Hother].
    destruct Hother as (Hquiet & _ & Herror);
      [vm_compute; discriminate | vm_compute; discriminate
       | vm_compute; discriminate | ].
    split; [exact Hquiet | ].
    destruct (Herror Sample.png_bytes eq_refl) as (shown & Hthrown & Hshown).
    rewrite Hthrown, Hshown; [reflexivity | ].
    vm_compute. repeat constructor.
Defined.

(** The form of an upload whose content type resolves to [image/png], as
    the string of lines 35-42: the multipart payload with one part, named
    [file], whose file name is the basename of the path. *)
Lemma uploadImage_form_png JSON_parse w this filePath s url req answer :
  toLowerCase (Path.extname filePath) = js ".png" ->
  In (EvFetch url req answer)
     (events_of (uploadImage JSON_parse w this filePath) s) ->
  exists ms fileBuffer,
    let boundary := boundaryOf ms in
    let form :=
      formData boundary (Path.basename filePath) (js "image/png") fileBuffer in
    readFile w (trace s) filePath = Ok fileBuffer
    /\ body req = Buffer_from_binary form
    /\ form = multipart_form_data boundary
                [mkPart (js "file") (Path.basename filePath) (js "image/png")
                        (Buffer_toString_binary fileBuffer)]
    /\ contains (CRLF ++ js "Content-Type: image/png" ++ CRLF) form
    /\ contains (js "filename=" ++ [QUOTE] ++ Path.basename filePath ++ [QUOTE])
                form
    /\ contains (js "name=" ++ [QUOTE] ++ js "file" ++ [QUOTE]) form.
Proof.
  intros Hext Hin.
  destruct (uploadImage_fetch_event _ _ _ _ _ _ _ _ Hin)
    as (fileBuffer & contentType & ms & Hread & Hct & _ & -> & _).
  rewrite Hext in Hct. injection Hct as <-.
  exists ms, fileBuffer. cbv zeta.
  split; [exact Hread | ]. split; [reflexivity | ].
  split; [apply formData_single_part | ].
  split; [ | split; [apply formData_filename | apply formData_part_name]].
  change (js "Content-Type: image/png")
    with (js "Content-Type: " ++ js "image/png").
  rewrite <- app_assoc. apply formData_content_type_line.
Qed.

Lemma latin1_js s : latin1 (js s).
Proof.
  unfold latin1, js. apply Forall_map, Forall_forall.
  intros a _. apply N_ascii_bounded.
Qed.

Lemma latin1_app a b : latin1 (a ++ b) <-> latin1 a /\ latin1 b.
Proof. apply Forall_app. Qed.

Lemma latin1_binary_string (b : Buffer) : latin1 (Buffer_toString_binary b).
Proof.
  unfold latin1, Buffer_toString_binary. apply Forall_map, Forall_forall.
  intros x _. pose proof (Byte.to_N_bounded x). lia.
Qed.

(** What is read back from a buffer holds no string with a code unit
    above 255. *)
Lemma binary_string_contains (sub : jsstring) (b : Buffer) :
  contains sub (Buffer_toString_binary b) -> latin1 sub.
Proof.
  intros (pre & post & H).
  pose proof (latin1_binary_string b) as Hall. rewrite H in Hall.
  apply latin1_app in Hall as [_ Hall]. apply latin1_app in Hall as [Hsub _].
  exact Hsub.
Qed.

(** C7.  The request for a PNG file with a Japanese name.  Discovery
    returns the file and its content type resolves to [image/png], but
    the body that is sent does not carry its basename: the [filename]
    attribute holds the low bytes of the code units of the name, the
    body read back holds no attribute with the name itself, and the
    request is the very request sent for a file of that other name. *)
Theorem uploadImage_sends_other_filename :
  let filePath := js "/tmp/playwright-mcp-output/" ++ More.nihon_png in
  let twin := js "/tmp/playwright-mcp-output/" ++ More.sent_png in
  let log path :=
    events_of (uploadImage Sample.JSON_parse More.w_nihon Sample.uploader path)
              initial in
  fst (findPngFiles More.w_nihon Sample.root initial) = Ret [filePath]
  /\ Path.basename filePath = More.nihon_png
  /\ contentTypeOf (toLowerCase (Path.extname filePath)) = Ok (js "image/png")
  /\ exists req answer,
       In (EvFetch (baseUrl Sample.uploader ++ js "/api/v1/media") req answer)
          (log filePath)
       /\ Buffer_toString_binary (body req)
          = formData (boundaryOf 1700000000000) More.sent_png
                     (js "image/png") Sample.png_bytes
       /\ ~ contains (js "filename=" ++ [QUOTE] ++ More.nihon_png ++ [QUOTE])
                     (Buffer_toString_binary (body req))
       /\ In (EvFetch (baseUrl Sample.uploader ++ js "/api/v1/media") req answer)
             (log twin).
Proof.
  cbv zeta.
  split; [vm_compute; reflexivity | ].
  split; [vm_compute; reflexivity | ].
  split; [vm_compute; reflexivity | ].
  exists (requestOf Sample.uploader (boundaryOf 1700000000000)
            (formData (boundaryOf 1700000000000) More.nihon_png
                      (js "image/png") Sample.png_bytes)),
         (Ok (mkResponse 200 (js "OK") (Ok Sample.body_ok))).
  split; [vm_compute; right; right; left; reflexivity | ].
  split; [vm_compute; reflexivity | ].
  split; [ | vm_compute; right; right; left; reflexivity].
  intros Hin. apply binary_string_contains in Hin.
  apply latin1_app in Hin as [_ Hin]. apply latin1_app in Hin as [_ Hin].
  apply latin1_app in Hin as [Hin _].
  unfold More.nihon_png in Hin. apply latin1_app in Hin as [Hin _].
  inversion Hin as [ | c l Hc _]. vm_compute in Hc. discriminate Hc.
Qed.

(** C10.  The [Content-Length] header of a request is the number of bytes
    of its body, and the body is the encoded head of the form, the bytes
    of the file as they were read, and the encoded tail: a buffer decoded
    to a binary string and encoded again is the same buffer. *)
Theorem uploadImage_content_length JSON_parse w this filePath s url req answer :
  In (EvFetch url req answer)
     (events_of (uploadImage JSON_parse w this filePath) s) ->
  Content_Length (headers req) = length (body req)
  /\ (exists boundary contentType fileBuffer,
        readFile w (trace s) filePath = Ok fileBuffer
        /\ body req
           = Buffer_from_binary
               (form_head boundary (Path.basename filePath) contentType)
             ++ fileBuffer
             ++ Buffer_from_binary (form_tail boundary))
  /\ (forall b : Buffer, Buffer_from_binary (Buffer_toString_binary b) = b).
Proof.
  intros Hin.
  destruct (uploadImage_fetch_event _ _ _ _ _ _ _ _ Hin)
    as (fileBuffer & contentType & ms & Hread & _ & _ & -> & _).
  split; [ | split].
  - unfold requestOf. cbn [headers Content_Length body].
    symmetry. apply Buffer_from_binary_length.
  - exists (boundaryOf ms), contentType, fileBuffer. split; [exact Hread | ].
    unfold requestOf. cbn [body].
    rewrite formData_pieces, !Buffer_from_binary_app, Buffer_binary_roundtrip.
    reflexivity.
  - exact Buffer_binary_roundtrip.
Qed.

Lemma uploadImage_content_length_witness :
  Content_Length
    (headers (requestOf Sample.uploader (boundaryOf 1700000000000)
                (formData (boundaryOf 1700000000000) (js "a.png")
                          (js "image/png") Sample.png_bytes)))
  = 178%nat
  /\ length (body (requestOf Sample.uploader (boundaryOf 1700000000000)
                     (formData (boundaryOf 1700000000000) (js "a.png")
                               (js "image/png") Sample.png_bytes)))
     = 178%nat.
Proof.
  assert (Hin :
    In (EvFetch
          (baseUrl Sample.uploader ++ js "/api/v1/media")
          (requestOf Sample.uploader (boundaryOf 1700000000000)
             (formData (boundaryOf 1700000000000) (js "a.png")
                       (js "image/png") Sample.png_bytes))
          (Ok (mkResponse 200 (js "OK") (Ok Sample.body_ok))))
       (events_of (uploadImage Sample.JSON_parse Sample.w_ok Sample.uploader
                     (js "/tmp/playwright-mcp-output/a.png")) initial)).
  { vm_compute. right. right. left. reflexivity. }
  destruct (uploadImage_content_length _ _ _ _ _ _ _ _ Hin) as [Hlen _].
  split; [reflexivity | ]. rewrite <- Hlen. reflexivity.
Defined.

(** The file name as it is sent.  The body is the form written one byte
    per code unit: a basename of Latin-1 characters is sent unchanged in
    its [filename] attribute, any other one loses the high byte of its
    code units. *)
Lemma uploadImage_sent_filename JSON_parse w this filePath s url req answer :
  In (EvFetch url req answer)
     (events_of (uploadImage JSON_parse w this filePath) s) ->
  latin1 (Path.basename filePath) ->
  (exists before after,
      body req
      = before
        ++ Buffer_from_binary
             (js "filename=" ++ [QUOTE] ++ Path.basename filePath ++ [QUOTE])
        ++ after)
  /\ Buffer_toString_binary (Buffer_from_binary (Path.basename filePath))
     = Path.basename filePath.
Proof.
  intros Hin Hlatin.
  destruct (uploadImage_fetch_event _ _ _ _ _ _ _ _ Hin)
    as (fileBuffer & contentType & ms & _ & _ & _ & -> & _).
  split; [ | apply Buffer_latin1_roundtrip; exact Hlatin].
  destruct (formData_filename (boundaryOf ms) (Path.basename filePath)
              contentType fileBuffer) as (pre & post & Hform).
  exists (Buffer_from_binary pre), (Buffer_from_binary post).
  unfold requestOf. cbn [body].
  rewrite Hform, !Buffer_from_binary_app. reflexivity.
Qed.

Example sent_filename_not_latin1 :
  Buffer_toString_binary (Buffer_from_binary ([26085; 26412] ++ js ".png"))
  = [229; 44] ++ js ".png".
Proof. reflexivity. Qed.

(** A file whose whole name is [.png] is taken by the scan (its name ends
    in [.png]) and refused by the upload ([path.extname] of a name that
    starts with its only dot is empty). *)
Example dot_png_found_and_refused :
  is_png_name (js ".png") = true
  /\ contentTypeOf (toLowerCase (Path.extname (js "/tmp/out/.png")))
     = Err (Error (js "Unsupported file type: ")).
Proof. split; reflexivity. Qed.

(** The string conversion of the values a response can hold. *)
Example ToString_examples :
  ToString (JStr (js "https://x/y.png")) = Ok (js "https://x/y.png")
  /\ ToString JUndefined = Ok (js "undefined")
  /\ ToString (JObj [(js "href", JStr (js "x"))]) = Ok (js "[object Object]")
  /\ ToString (JArr [JNum (js "1"); JNull; JStr (js "a")]) = Ok (js "1,,a")
  /\ ToString (JObj [(js "toString", JNull)])
     = Err (Error (js "Cannot convert object to primitive value")).
Proof. repeat split; reflexivity. Qed.

(** ** The claims about the batch and the entry point *)

(** The batch of the specification: three files, the second upload is
    answered with a 500; three entries, in the order found, the second one
    a failure. *)
Example batch_of_three :
  fst (uploadDirectory Sample.JSON_parse Sample.path_relative Sample.w_three
         Sample.uploader Sample.root initial)
  = Ret [Success (js "a.png") (js "a.png") (JStr (js "https://x/y.png"));
         Failure (js "b.PNG") (js "sub/b.PNG")
                 (js "Upload failed: 500 Internal Server Error - boom");
         Success (js "c.Png") (js "c.Png") (JStr (js "https://x/y.png"))].
Proof. vm_compute. reflexivity. Qed.

(** C1.  The batch runner at a response whose [url] cannot be converted to
    a string: one file is found, the upload returns, its success entry is
    pushed, the progress line of line 116 throws inside the [try], and the
    [catch] pushes a failure entry for the same file: two entries for one
    file. *)
Theorem uploadDirectory_records_twice :
  fst (findPngFiles Sample.w_unprintable Sample.root initial)
  = Ret [js "/tmp/playwright-mcp-output/a.png"]
  /\ fst (uploadImage Sample.JSON_parse Sample.w_unprintable Sample.uploader
            (js "/tmp/playwright-mcp-output/a.png") initial)
     = Ret (JObj [(js "toString", JNull)])
  /\ fst (uploadDirectory Sample.JSON_parse Sample.path_relative
            Sample.w_unprintable Sample.uploader Sample.root initial)
     = Ret [Success (js "a.png") (js "a.png") (JObj [(js "toString", JNull)]);
            Failure (js "a.png") (js "a.png")
                    (js "Cannot convert object to primitive value")].
Proof. repeat split; vm_compute; reflexivity. Qed.

(** C2.  The exit code of the entry point, for any batch runner that does
    not end the process itself: it is 0 or 1; it is 0 exactly when the
    credentials are there and either the directory is absent or the batch
    returned only successes; it is 1 exactly when the credentials are
    missing, or the batch threw, or it returned a failure; and with the
    directory absent the run is the access check, one line and the
    exit. *)
Theorem main_exit_code_spec JSON_stringify w batch :
  (forall s code s',
      batch (the_uploader w) screenshotsPath s <> (Exited code, s')) ->
  let code := fst (run (main_with JSON_stringify w batch)) in
  let absent := lookup w screenshotsPath = None in
  let outcome := fst (batch (the_uploader w) screenshotsPath before_batch) in
  (code = 0 \/ code = 1)%Z
  /\ (code = 0%Z <->
      credentials w = true
      /\ (absent
          \/ exists results,
               outcome = Ret results /\ forallb success results = true))
  /\ (code = 1%Z <->
      credentials w = false
      \/ (credentials w = true /\ ~ absent
          /\ ((exists e, outcome = Thrown e)
              \/ exists results,
                   outcome = Ret results
                   /\ existsb (fun r => negb (success r)) results = true)))
  /\ (credentials w = true -> absent ->
      snd (run (main_with JSON_stringify w batch)) = directory_missing).
Proof.
  intros Hbatch code absent outcome. subst code absent outcome.
  destruct (credentials w) eqn:Hcred.
  2: { rewrite (main_without_credentials _ _ _ Hcred). cbn [fst snd].
       split; [right; reflexivity | ].
       split; [split; [discriminate | intros [H _]; discriminate H] | ].
       split; [split; [left; reflexivity | reflexivity] | ].
       intros H. discriminate H. }
  destruct (lookup w screenshotsPath) as [d | ] eqn:Hdir.
  2: { rewrite (main_without_directory _ _ _ Hcred Hdir). cbn [fst snd].
       split; [left; reflexivity | ].
       split; [split; [intros _; split; [ | left]; reflexivity | reflexivity] | ].
       split; [ | reflexivity].
       split; [discriminate | ].
       intros [H | (_ & H & _)]; [discriminate H | contradiction H; reflexivity]. }
  assert (Hpresent : lookup w screenshotsPath <> None)
    by (rewrite Hdir; discriminate).
  rewrite (main_exit_code _ _ _ Hcred Hpresent).
  destruct (batch (the_uploader w) screenshotsPath before_batch)
    as [[results | e | code] s'] eqn:Hrun; cbn [fst].
  - destruct (forallb success results) eqn:Hall.
    + split; [left; reflexivity | ].
      split; [split; [intros _; split; [reflexivity | right; eauto]
                     | reflexivity] | ].
      split; [ | intros _ H; discriminate H].
      split; [discriminate | ].
      intros [H | (_ & _ & [[e H] | (results' & H & Hex)])];
        [discriminate H | discriminate H | ].
      injection H as <-. rewrite existsb_failed, Hall in Hex. discriminate Hex.
    + split; [right; reflexivity | ].
      split; [ | split; [ | intros _ H; discriminate H]].
      * split; [discriminate | ].
        intros [_ [H | (results' & H & Hall')]]; [discriminate H | ].
        injection H as <-. congruence.
      * split; [ | reflexivity].
        intros _. right. split; [reflexivity | ]. split; [discriminate | ].
        right. exists results. split; [reflexivity | ].
        rewrite existsb_failed, Hall. reflexivity.
  - split; [right; reflexivity | ].
    split; [ | split; [ | intros _ H; discriminate H]].
    + split; [discriminate | ].
      intros [_ [H | (results' & H & _)]]; discriminate H.
    + split; [ | reflexivity].
      intros _. right. split; [reflexivity | ]. split; [discriminate | ].
      left. exists e. reflexivity.
  - exfalso. exact (Hbatch _ _ _ Hrun).
Qed.

Lemma main_exit_code_spec_witness :
  fst (run (main Sample.JSON_parse Sample.path_relative Sample.JSON_stringify
              Sample.w_ok)) = 0%Z.
Proof.
  destruct (main_exit_code_spec Sample.JSON_stringify Sample.w_ok
              (uploadDirectory Sample.JSON_parse Sample.path_relative
                               Sample.w_ok)) as (_ & Hzero & _).
  - intros s code s'. apply uploadDirectory_never_exits.
  - apply Hzero. split; [reflexivity | ]. right.
    exists [Success (js "a.png") (js "a.png") (JStr (js "https://x/y.png"))].
    split; vm_compute; reflexivity.
Defined.

(** The exit code of the script itself: no exception reaches the top
    level, so the code is 1 exactly when the credentials are missing or an
    entry of the report is a failure. *)
Corollary main_exit_code_of_script JSON_parse path_relative JSON_stringify w :
  fst (run (main JSON_parse path_relative JSON_stringify w))
  = if negb (credentials w) then 1%Z
    else match lookup w screenshotsPath with
         | None => 0%Z
         | Some _ =>
             match fst (uploadDirectory JSON_parse path_relative w
                          (the_uploader w) screenshotsPath before_batch) with
             | Ret results => if forallb success results then 0%Z else 1%Z
             | _ => 1%Z
             end
         end.
Proof.
  unfold main. destruct (credentials w) eqn:Hcred; cbn [negb].
  2: { rewrite (main_without_credentials _ _ _ Hcred). reflexivity. }
  destruct (lookup w screenshotsPath) as [d | ] eqn:Hdir.
  2: { rewrite (main_without_directory _ _ _ Hcred Hdir). reflexivity. }
  rewrite (main_exit_code _ _ _ Hcred)
    by (rewrite Hdir; discriminate).
  destruct (uploadDirectory_run JSON_parse path_relative w (the_uploader w)
              screenshotsPath before_batch) as (groups & line & evs & -> & _).
  reflexivity.
Qed.

(** C5.  With either credential variable unset, the run of the entry point
    is the error line followed by exit code 1, whatever the batch runner:
    nothing is looked up, listed, read or sent. *)
Theorem main_missing_credentials JSON_stringify w batch :
  env w (js "MICROCMS_SERVICE_DOMAIN") = None
  \/ env w (js "MICROCMS_API_KEY") = None ->
  run (main_with JSON_stringify w batch) = (1%Z, [credentials_error; EvExit 1])
  /\ forallb (fun e => negb (is_io e))
             (snd (run (main_with JSON_stringify w batch))) = true.
Proof.
  intros Habsent.
  assert (Hcred : credentials w = false).
  { unfold credentials. apply negb_false_iff.
    destruct Habsent as [-> | ->]; [reflexivity | ].
    apply orb_true_r. }
  rewrite (main_without_credentials _ _ _ Hcred). split; reflexivity.
Qed.

Lemma main_missing_credentials_witness :
  run (main Sample.JSON_parse Sample.path_relative Sample.JSON_stringify
         Sample.w_no_credentials)
  = (1%Z, [credentials_error; EvExit 1]).
Proof.
  apply (main_missing_credentials Sample.JSON_stringify Sample.w_no_credentials
           (uploadDirectory Sample.JSON_parse Sample.path_relative
                            Sample.w_no_credentials)).
  left. reflexivity.
Defined.

(** C9.  A credential variable that is set to the empty string is treated
    as an unset one: the run is the error line followed by exit code 1,
    the same run as in the world without the credentials, and nothing is
    looked up, listed, read or sent. *)
Theorem main_empty_credentials JSON_stringify w batch :
  env w (js "MICROCMS_SERVICE_DOMAIN") = Some []
  \/ env w (js "MICROCMS_API_KEY") = Some [] ->
  run (main_with JSON_stringify w batch) = (1%Z, [credentials_error; EvExit 1])
  /\ run (main_with JSON_stringify w batch)
     = run (main_with JSON_stringify (without_credentials w) batch)
  /\ forallb (fun e => negb (is_io e))
             (snd (run (main_with JSON_stringify w batch))) = true.
Proof.
  intros Hempty.
  assert (Hcred : credentials w = false).
  { unfold credentials. apply negb_false_iff.
    destruct Hempty as [-> | ->]; [reflexivity | ].
    apply orb_true_r. }
  assert (Hcred' : credentials (without_credentials w) = false) by reflexivity.
  pose proof (main_without_credentials JSON_stringify _ batch Hcred) as Hrun.
  pose proof (main_without_credentials JSON_stringify _ batch Hcred') as Hrun'.
  rewrite Hrun'. rewrite Hrun. repeat split; reflexivity.
Qed.

Lemma main_empty_credentials_witness :
  run (main Sample.JSON_parse Sample.path_relative Sample.JSON_stringify
         Sample.w_empty_key)
  = (1%Z, [credentials_error; EvExit 1]).
Proof.
  apply (main_empty_credentials Sample.JSON_stringify Sample.w_empty_key
           (uploadDirectory Sample.JSON_parse Sample.path_relative
                            Sample.w_empty_key)).
  right. reflexivity.
Defined.

(** ** The claims about discovery *)

(** C3, as amended.  For a tree all of whose directories can be listed,
    with N regular files whose lowercased name ends in [.png] and M other
    regular files, [findPngFiles] returns the paths of the N files, in
    listing order, and (entry names being as [readdir] gives them) the
    path of none of the M others. *)
Theorem findPngFiles_exact w directoryPath d s (found_N others_M : nat) :
  lookup w directoryPath = Some d ->
  listable d = true ->
  length (png_files_under directoryPath d) = found_N ->
  length (other_files_under directoryPath d) = others_M ->
  exists found s',
    findPngFiles w directoryPath s = (Ret found, s')
    /\ found = map fst (png_files_under directoryPath d)
    /\ length found = found_N
    /\ (plain_names d = true ->
        forall other, In other (other_files_under directoryPath d) ->
                      ~ In (fst other) found).
Proof.
  intros Hd Hl HN HM. rewrite findPngFiles_run, (nodeAt_found _ _ _ Hd).
  do 2 eexists. split; [reflexivity | ].
  rewrite (found_under_listable d directoryPath Hl).
  split; [reflexivity | ]. split; [rewrite length_map; exact HN | ].
  intros Hplain [p name] Hother Hfound. cbn [fst] in Hfound.
  unfold other_files_under in Hother. apply filter_In in Hother as [Hin Hneg].
  cbn [snd] in Hneg. apply negb_true_iff in Hneg.
  apply in_map_iff in Hfound as [[p' name'] [Hp Hpng]]. cbn [fst] in Hp. subst p'.
  unfold png_files_under in Hpng. apply filter_In in Hpng as [Hin' Hyes].
  cbn [snd] in Hyes.
  rewrite <- (files_under_basename d _ _ _ Hplain Hin) in Hneg.
  rewrite <- (files_under_basename d _ _ _ Hplain Hin') in Hyes.
  congruence.
Qed.

Lemma findPngFiles_exact_witness :
  fst (findPngFiles Sample.w_three Sample.root initial)
  = Ret [js "/tmp/playwright-mcp-output/a.png";
         js "/tmp/playwright-mcp-output/sub/b.PNG";
         js "/tmp/playwright-mcp-output/c.Png"].
Proof.
  destruct (findPngFiles_exact Sample.w_three Sample.root Sample.three_png
              initial 3 1 eq_refl eq_refl eq_refl eq_refl)
    as (found & s' & Hrun & Hfound & _).
  rewrite Hrun, Hfound. reflexivity.
Defined.

(** C3 as it is stated, for every tree, fails: a PNG file below a
    directory that cannot be listed is not returned. *)
Lemma findPngFiles_misses_unlistable :
  ~ (forall w directoryPath d s,
       lookup w directoryPath = Some d ->
       exists found s',
         findPngFiles w directoryPath s = (Ret found, s')
         /\ length found = length (png_files_under directoryPath d)).
Proof.
  intros Hclaim.
  destruct (Hclaim Sample.w_hidden Sample.root Sample.hidden_png initial eq_refl)
    as (found & s' & Hrun & Hlen).
  rewrite findPngFiles_run in Hrun. injection Hrun as <- _.
  vm_compute in Hlen. discriminate Hlen.
Qed.

Example findPngFiles_hidden_run :
  map fst (png_files_under Sample.root Sample.hidden_png)
  = [js "/tmp/playwright-mcp-output/secret/a.png";
     js "/tmp/playwright-mcp-output/open/b.png"]
  /\ fst (findPngFiles Sample.w_hidden Sample.root initial)
     = Ret [js "/tmp/playwright-mcp-output/open/b.png"].
Proof. split; vm_compute; reflexivity. Qed.

Lemma flat_map_of_map {A B C} (f : B -> list C) (g : A -> B) l :
  flat_map f (map g l) = flat_map (fun x => f (g x)) l.
Proof.
  induction l as [ | x l IH]; [reflexivity | ].
  cbn. rewrite IH. reflexivity.
Qed.

(** Whatever the tree, the scan pushes the paths of the regular files
    with a PNG name that it can reach, in order. *)
Lemma found_under_reachable d :
  forall currentPath,
    found_under currentPath d
    = map fst (png_files_under currentPath (reachable d)).
Proof.
  induction d as [ | | failure entries IH] using node_rect_nested;
    intros currentPath; try reflexivity.
  destruct failure as [e | ]; [reflexivity | ].
  unfold png_files_under. cbn [found_under files_under reachable].
  rewrite filter_flat_map, map_flat_map, flat_map_of_map.
  apply flat_map_ext_Forall.
  eapply Forall_impl; [ | exact IH].
  intros [name entry] Hentry. cbn [fst snd] in *.
  destruct entry as [ | | f es].
  - cbn. destruct (is_png_name name); reflexivity.
  - reflexivity.
  - rewrite Hentry. unfold png_files_under.
    destruct f as [e | ]; reflexivity.
Qed.

(** The warnings of a scan are those of its failed listings, and the
    listings that fail are those of the paths it reaches and cannot
    list, in order. *)
Lemma scan_events_unlistable d :
  forall p,
    filter is_warning (scan_events p d)
    = flat_map (fun ev => match ev with
                          | EvReaddir path (Some e) => [scan_warning path e]
                          | _ => []
                          end) (scan_events p d)
    /\ flat_map (fun ev => match ev with
                           | EvReaddir path (Some _) => [path]
                           | _ => []
                           end) (scan_events p d)
       = unlistable_under p d.
Proof.
  induction d as [ | | failure entries IH] using node_rect_nested;
    intros p; try (split; reflexivity).
  destruct failure as [e | ]; [split; reflexivity | ].
  cbn [scan_events unlistable_under flat_map filter is_warning app].
  induction IH as [ | [name entry] rest Hentry _ IHrest];
    [split; reflexivity | ].
  cbn [flat_map]. rewrite !filter_app, !flat_map_app.
  destruct IHrest as [-> ->].
  destruct entry as [ | | f es]; try (split; reflexivity).
  destruct (Hentry (Path.join [p; name])) as [Hwarn Hfail].
  cbn [snd] in Hwarn, Hfail. rewrite Hwarn, Hfail. split; reflexivity.
Qed.

(** C8.  Discovery always returns: no error reaches the caller.  What it
    returns are the PNG files of the part of the tree it can reach, in
    listing order: a directory that cannot be listed hides what is below
    it and nothing else, so the directories next to it and after it are
    scanned as without it.  The listings that fail are those of the
    paths reached that cannot be listed; each of them is answered by one
    call of [console.warn] that names the path and gives the message of
    the error, and there is no other warning.  A tree without matching
    files gives the empty sequence. *)
Theorem findPngFiles_never_throws w directoryPath s :
  let d := nodeAt w directoryPath in
  let scan := findPngFiles w directoryPath in
  fst (scan s) = Ret (map fst (png_files_under directoryPath (reachable d)))
  /\ flat_map (fun ev => match ev with
                         | EvReaddir path (Some _) => [path]
                         | _ => []
                         end) (events_of scan s)
     = unlistable_under directoryPath d
  /\ filter is_warning (events_of scan s)
     = flat_map (fun ev =>
                   match ev with
                   | EvReaddir path (Some e) =>
                       [EvConsole Warn
                          [js "Could not scan directory " ++ path ++ js ":";
                           message e]]
                   | _ => []
                   end) (events_of scan s)
  /\ (png_files_under directoryPath d = [] -> fst (scan s) = Ret []).
Proof.
  cbv zeta. unfold events_of. rewrite findPngFiles_run.
  cbn [fst snd trace]. rewrite skipn_length_app.
  destruct (scan_events_unlistable (nodeAt w directoryPath) directoryPath)
    as [Hwarn Hfail].
  split; [rewrite found_under_reachable; reflexivity | ].
  split; [exact Hfail | ]. split; [exact Hwarn | ].
  intros Hnone.
  destruct (found_under directoryPath (nodeAt w directoryPath))
    as [ | p rest] eqn:Efound; [reflexivity | ].
  assert (Hin : In p (map fst (png_files_under directoryPath
                                 (nodeAt w directoryPath)))).
  { apply found_under_sound. rewrite Efound. left. reflexivity. }
  rewrite Hnone in Hin. contradiction.
Qed.

Lemma findPngFiles_never_throws_witness :
  fst (findPngFiles Sample.w_hidden Sample.root initial)
  = Ret [js "/tmp/playwright-mcp-output/open/b.png"]
  /\ filter is_warning
       (events_of (findPngFiles Sample.w_hidden Sample.root) initial)
     = [EvConsole Warn
          [js "Could not scan directory /tmp/playwright-mcp-output/secret:";
           js "EACCES: permission denied, scandir '/tmp/playwright-mcp-output/secret'"]]
  /\ fst (findPngFiles Sample.w_no_png Sample.root initial) = Ret [].
Proof.
  destruct (findPngFiles_never_throws Sample.w_hidden Sample.root initial)
    as (Hret & _ & Hwarn & _).
  destruct (findPngFiles_never_throws Sample.w_no_png Sample.root initial)
    as (_ & _ & _ & Hnone).
  split; [rewrite Hret; reflexivity | ].
  split; [rewrite Hwarn; reflexivity | ].
  apply Hnone. reflexivity.
Defined.

(** * Further properties *)

(** ** One upload *)

Lemma js_injective a b : js a = js b -> a = b.
Proof.
  unfold js. intros H.
  rewrite <- (string_of_list_ascii_of_string a),
          <- (string_of_list_ascii_of_string b).
  f_equal. revert H.
  generalize (list_ascii_of_string a) (list_ascii_of_string b).
  intros l. induction l as [ | x l IH]; intros [ | y m] H;
    try reflexivity; try discriminate.
  cbn [map] in H. injection H as Hxy Hlm.
  rewrite <- (ascii_N_embedding x), <- (ascii_N_embedding y), Hxy.
  f_equal. apply IH. exact Hlm.
Qed.

Lemma dec_Z_injective a b : dec_Z a = dec_Z b -> a = b.
Proof.
  unfold dec_Z. intros H. apply js_injective in H.
  apply (f_equal NilEmpty.int_of_string) in H.
  rewrite !NilEmpty.isi in H. injection H as H.
  rewrite <- (DecimalZ.of_to a), <- (DecimalZ.of_to b), H. reflexivity.
Qed.

(** Writing a string in the binary encoding and reading it back gives
    the string exactly when it has no code unit above 255. *)
Lemma binary_roundtrip_iff_latin1 (s : jsstring) :
  Buffer_toString_binary (Buffer_from_binary s) = s <-> latin1 s.
Proof.
  split; [ | apply Buffer_latin1_roundtrip].
  intros H. rewrite <- H. apply latin1_binary_string.
Qed.

Lemma contentTypeOf_latin1 ext ct : contentTypeOf ext = Ok ct -> latin1 ct.
Proof.
  destruct (contentTypeOf_cases ext)
    as [[_ ->] | [[_ ->] | (_ & _ & _ & ->)]]; intros [= <-];
    apply latin1_js.
Qed.

Ltac uploadImage_cases JSON_parse w s filePath :=
  unfold events_of; rewrite !uploadImage_run; cbv zeta;
  destruct (readFile w (trace s) filePath) as [?fileBuffer | ?e] eqn:?Eread;
  [ destruct (contentTypeOf (toLowerCase (Path.extname filePath)))
      as [?contentType | ?e] eqn:?Etype;
    [ match goal with
      | |- context [fetch w ?h ?u ?r] =>
          destruct (fetch w h u r) as [?response | ?e] eqn:?Efetch;
          [ destruct (response_result JSON_parse response)
              as [?v | ?e] eqn:?Eresult | ]
      end
    | ]
  | ];
  cbn [fst snd log_to trace pngFiles uploadResults];
  rewrite ?skipn_length_app.

(** X1.  A call of [uploadImage] reads the file once, before anything
    else, sends at most one request, leaves the two arrays of the batch
    as they are and never ends the process. *)
Theorem uploadImage_one_read_one_request JSON_parse w this filePath s :
  let upload := uploadImage JSON_parse w this filePath in
  read_paths (events_of upload s) = [filePath]
  /\ (length (filter is_fetch (events_of upload s)) <= 1)%nat
  /\ (exists answer rest,
        events_of upload s = EvReadFile filePath answer :: rest
        /\ answer = readFile w (trace s) filePath)
  /\ pngFiles (snd (upload s)) = pngFiles s
  /\ uploadResults (snd (upload s)) = uploadResults s
  /\ (forall code, fst (upload s) <> Exited code).
Proof.
  cbv zeta. uploadImage_cases JSON_parse w s filePath;
    (split; [reflexivity | ]); (split; [cbn; lia | ]);
    (split; [do 2 eexists; split; reflexivity | ]);
    repeat split; discriminate.
Qed.

(** The request of an upload, with the events around it. *)
Lemma uploadImage_request JSON_parse w this filePath s url req answer :
  In (EvFetch url req answer)
     (events_of (uploadImage JSON_parse w this filePath) s) ->
  exists fileBuffer contentType ms rest,
    readFile w (trace s) filePath = Ok fileBuffer
    /\ contentTypeOf (toLowerCase (Path.extname filePath)) = Ok contentType
    /\ ms = now w (trace s ++ [EvReadFile filePath (Ok fileBuffer)])
    /\ url = baseUrl this ++ js "/api/v1/media"
    /\ req = requestOf this (boundaryOf ms)
               (formData (boundaryOf ms) (Path.basename filePath)
                         contentType fileBuffer)
    /\ events_of (uploadImage JSON_parse w this filePath) s
       = EvReadFile filePath (Ok fileBuffer) :: EvNow ms
         :: EvFetch url req answer :: rest
    /\ Forall (fun e => is_console e = true) rest.
Proof.
  uploadImage_cases JSON_parse w s filePath; cbn [In]; intros H;
    decompose [or] H; clear H; try discriminate; try contradiction;
    match goal with
    | H : EvFetch _ _ _ = EvFetch _ _ _ |- _ => injection H as <- <- <-
    end;
    do 4 eexists; repeat (split; [reflexivity | ]);
    repeat constructor.
Qed.

(** X2.  Every request of an uploader built by the constructor is a POST
    to [https://<serviceDomain>.microcms-management.io/api/v1/media] that
    carries the API key, and the boundary announced in its [Content-Type]
    header is the one of the clock reading of that upload and the one its
    body opens and closes with. *)
Theorem uploadImage_request_shape JSON_parse w domain key filePath s
    url req answer :
  In (EvFetch url req answer)
     (events_of (uploadImage JSON_parse w (constructor domain key) filePath) s) ->
  url = js "https://" ++ template domain
        ++ js ".microcms-management.io" ++ js "/api/v1/media"
  /\ method req = js "POST"
  /\ X_MICROCMS_API_KEY (headers req) = template key
  /\ exists ms middle,
       In (EvNow ms)
          (events_of (uploadImage JSON_parse w (constructor domain key)
                        filePath) s)
       /\ Content_Type (headers req)
          = js "multipart/form-data; boundary=" ++ boundaryOf ms
       /\ body req
          = Buffer_from_binary (js "--" ++ boundaryOf ms ++ CRLF)
            ++ middle
            ++ Buffer_from_binary (CRLF ++ js "--" ++ boundaryOf ms ++ js "--").
Proof.
  intros Hin.
  destruct (uploadImage_request _ _ _ _ _ _ _ _ Hin)
    as (fileBuffer & contentType & ms & rest & _ & _ & _ & Hurl & Hreq & Hev & _).
  rewrite Hev. subst url req.
  split. { cbn [constructor baseUrl]. rewrite <- !app_assoc. reflexivity. }
  split; [reflexivity | ]. split; [reflexivity | ].
  exists ms.
  exists (Buffer_from_binary
            (js "Content-Disposition: form-data; name=" ++ [QUOTE] ++ js "file"
             ++ [QUOTE] ++ js "; filename=" ++ [QUOTE]
             ++ Path.basename filePath ++ [QUOTE] ++ CRLF
             ++ js "Content-Type: " ++ contentType ++ CRLF ++ CRLF)
          ++ fileBuffer).
  split; [right; left; reflexivity | ].
  split; [reflexivity | ].
  unfold requestOf. cbn [body].
  rewrite formData_pieces. unfold form_head, form_tail.
  rewrite !Buffer_from_binary_app, Buffer_binary_roundtrip.
  rewrite <- !app_assoc. reflexivity.
Qed.

Lemma uploadImage_request_shape_witness :
  method
    (requestOf Sample.uploader (boundaryOf 1700000000000)
       (formData (boundaryOf 1700000000000) (js "a.png") (js "image/png")
                 Sample.png_bytes))
  = js "POST"
  /\ baseUrl Sample.uploader ++ js "/api/v1/media"
     = js "https://my-service.microcms-management.io/api/v1/media".
Proof.
  assert (Hin :
    In (EvFetch
          (baseUrl Sample.uploader ++ js "/api/v1/media")
          (requestOf Sample.uploader (boundaryOf 1700000000000)
             (formData (boundaryOf 1700000000000) (js "a.png")
                       (js "image/png") Sample.png_bytes))
          (Ok (mkResponse 200 (js "OK") (Ok Sample.body_ok))))
       (events_of (uploadImage Sample.JSON_parse Sample.w_ok
                     (constructor (Some (js "my-service"))
                                  (Some (js "secret-key")))
                     (js "/tmp/playwright-mcp-output/a.png")) initial)).
  { vm_compute. right. right. left. reflexivity. }
  destruct (uploadImage_request_shape _ _ _ _ _ _ _ _ _ Hin)
    as (Hurl & Hmethod & _).
  split; [exact Hmethod | ].
  rewrite Hurl. reflexivity.
Defined.

(** X3.  An upload that fails says so once, as its last act: it calls
    [console.error] with two arguments, the text that names the file and
    the message of the very error that is thrown; before it, and in an
    upload that returns, the console is not called. *)
Theorem uploadImage_failure_line JSON_parse w this filePath s :
  let upload := uploadImage JSON_parse w this filePath in
  (forall e, fst (upload s) = Thrown e ->
     exists before,
       events_of upload s
       = before ++ [EvConsole ErrorLevel
                      [js "Failed to upload " ++ filePath ++ js ":";
                       message e]]
       /\ filter is_console before = [])
  /\ (forall v, fst (upload s) = Ret v ->
        filter is_console (events_of upload s) = []).
Proof.
  cbv zeta. split.
  - intros err. uploadImage_cases JSON_parse w s filePath;
      intros [= <-]; unfold upload_failure_line;
      match goal with
      | |- exists before, [?a; ?b; ?c; ?d] = _ /\ _ => exists [a; b; c]
      | |- exists before, [?a; ?b] = _ /\ _ => exists [a]
      end;
      split; reflexivity.
  - intros v. uploadImage_cases JSON_parse w s filePath;
      intros [= <-]. reflexivity.
Qed.

Lemma uploadImage_failure_line_witness :
  exists before,
    events_of (uploadImage Sample.JSON_parse Sample.w_500 Sample.uploader
                 (js "/tmp/playwright-mcp-output/a.png")) initial
    = before
      ++ [EvConsole ErrorLevel
            [js "Failed to upload /tmp/playwright-mcp-output/a.png:";
             js "Upload failed: 500 Internal Server Error - boom"]]
    /\ filter is_console before = [].
Proof.
  destruct (uploadImage_failure_line Sample.JSON_parse Sample.w_500
              Sample.uploader (js "/tmp/playwright-mcp-output/a.png") initial)
    as [Hfail _].
  apply (Hfail (Error (js "Upload failed: 500 Internal Server Error - boom"))).
  vm_compute. reflexivity.
Defined.

(** X4.  The errors of the platform reach the caller unchanged.  A file
    that cannot be read makes the upload fail with the error of
    [readFile], before the clock is read and without a request; a request
    that is rejected makes it fail with the error of [fetch]. *)
Theorem uploadImage_platform_errors JSON_parse w this filePath s :
  let upload := uploadImage JSON_parse w this filePath in
  (forall e, readFile w (trace s) filePath = Err e ->
     fst (upload s) = Thrown e
     /\ filter is_upload_io (events_of upload s)
        = [EvReadFile filePath (Err e)])
  /\ (forall url req e,
        In (EvFetch url req (Err e)) (events_of upload s) ->
        fst (upload s) = Thrown e).
Proof.
  cbv zeta. split.
  - intros err Herr. unfold events_of. rewrite uploadImage_run. cbv zeta.
    rewrite Herr. cbn [fst snd log_to trace]. rewrite skipn_length_app.
    split; reflexivity.
  - intros url req err Hin.
    destruct (uploadImage_fetch_event _ _ _ _ _ _ _ _ Hin)
      as (fileBuffer & contentType & ms & _ & _ & _ & _ & ->).
    reflexivity.
Qed.

Lemma uploadImage_platform_errors_witness :
  fst (uploadImage Sample.JSON_parse More.w_unreadable Sample.uploader
         (js "/tmp/playwright-mcp-output/a.png") initial)
  = Thrown (ENOENT (js "open") (js "/tmp/playwright-mcp-output/a.png"))
  /\ filter is_upload_io
       (events_of (uploadImage Sample.JSON_parse More.w_unreadable
                     Sample.uploader (js "/tmp/playwright-mcp-output/a.png"))
                  initial)
     = [EvReadFile (js "/tmp/playwright-mcp-output/a.png")
          (Err (ENOENT (js "open") (js "/tmp/playwright-mcp-output/a.png")))].
Proof.
  destruct (uploadImage_platform_errors Sample.JSON_parse More.w_unreadable
              Sample.uploader (js "/tmp/playwright-mcp-output/a.png") initial)
    as [Hread _].
  apply Hread. reflexivity.
Defined.

(** X5.  The body that is sent, read back as a binary string, is the form
    that was built exactly when the basename of the file has no code unit
    above 255: the boundary, the content type and the file content always
    survive the encoding, the file name only if it is Latin-1. *)
Theorem uploadImage_body_decodes JSON_parse w this filePath s url req answer :
  In (EvFetch url req answer)
     (events_of (uploadImage JSON_parse w this filePath) s) ->
  exists boundary contentType fileBuffer,
    let form :=
      formData boundary (Path.basename filePath) contentType fileBuffer in
    body req = Buffer_from_binary form
    /\ (Buffer_toString_binary (body req) = form
        <-> latin1 (Path.basename filePath)).
Proof.
  intros Hin.
  destruct (uploadImage_fetch_event _ _ _ _ _ _ _ _ Hin)
    as (fileBuffer & contentType & ms & _ & Htype & _ & -> & _).
  exists (boundaryOf ms), contentType, fileBuffer. cbv zeta.
  split; [reflexivity | ].
  unfold requestOf. cbn [body]. rewrite binary_roundtrip_iff_latin1.
  rewrite formData_pieces. unfold form_head, form_tail, boundaryOf.
  rewrite !latin1_app.
  pose proof (contentTypeOf_latin1 _ _ Htype) as Hct.
  pose proof (latin1_binary_string fileBuffer) as Hfile.
  assert (Hq : latin1 [QUOTE]) by (repeat constructor).
  assert (Hcrlf : latin1 CRLF) by (repeat constructor).
  unfold dec_Z. split.
  - intros H. decompose [and] H. assumption.
  - intros Hname. repeat split; try apply latin1_js; assumption.
Qed.

Lemma uploadImage_body_decodes_witness :
  exists boundary contentType fileBuffer,
    let form := formData boundary (Path.basename (js "/tmp/playwright-mcp-output/a.png"))
                  contentType fileBuffer in
    body (requestOf Sample.uploader (boundaryOf 1700000000000)
            (formData (boundaryOf 1700000000000) (js "a.png")
                      (js "image/png") Sample.png_bytes))
    = Buffer_from_binary form
    /\ (Buffer_toString_binary
          (body (requestOf Sample.uploader (boundaryOf 1700000000000)
                   (formData (boundaryOf 1700000000000) (js "a.png")
                             (js "image/png") Sample.png_bytes)))
        = form
        <-> latin1 (Path.basename (js "/tmp/playwright-mcp-output/a.png"))).
Proof.
  apply (uploadImage_body_decodes Sample.JSON_parse Sample.w_ok
           Sample.uploader (js "/tmp/playwright-mcp-output/a.png") initial
           (baseUrl Sample.uploader ++ js "/api/v1/media")
           (requestOf Sample.uploader (boundaryOf 1700000000000)
              (formData (boundaryOf 1700000000000) (js "a.png")
                        (js "image/png") Sample.png_bytes))
           (Ok (mkResponse 200 (js "OK") (Ok Sample.body_ok)))).
  vm_compute. right. right. left. reflexivity.
Defined.

(** X6.  The boundary tells the clock reading: the requests of two
    uploads announce the same boundary exactly when [Date.now()] gave
    both the same millisecond. *)
Theorem uploadImage_boundary_of_clock JSON_parse w1 w2 this1 this2
    filePath1 filePath2 s1 s2 url1 url2 req1 req2 answer1 answer2 ms1 ms2 :
  In (EvFetch url1 req1 answer1)
     (events_of (uploadImage JSON_parse w1 this1 filePath1) s1) ->
  In (EvNow ms1) (events_of (uploadImage JSON_parse w1 this1 filePath1) s1) ->
  In (EvFetch url2 req2 answer2)
     (events_of (uploadImage JSON_parse w2 this2 filePath2) s2) ->
  In (EvNow ms2) (events_of (uploadImage JSON_parse w2 this2 filePath2) s2) ->
  Content_Type (headers req1) = Content_Type (headers req2) <-> ms1 = ms2.
Proof.
  intros Hf1 Hn1 Hf2 Hn2.
  assert (Hclock : forall w this filePath s url req answer ms,
             In (EvFetch url req answer)
                (events_of (uploadImage JSON_parse w this filePath) s) ->
             In (EvNow ms)
                (events_of (uploadImage JSON_parse w this filePath) s) ->
             Content_Type (headers req)
             = js "multipart/form-data; boundary=" ++ boundaryOf ms).
  { intros w this filePath s url req answer ms Hf Hn.
    destruct (uploadImage_request _ _ _ _ _ _ _ _ Hf)
      as (fileBuffer & contentType & ms' & rest & _ & _ & _ & _ & -> & Hev
          & Hrest).
    rewrite Hev in Hn. cbn [In] in Hn.
    destruct Hn as [Hn | [Hn | [Hn | Hn]]]; try discriminate Hn.
    - injection Hn as <-. reflexivity.
    - rewrite Forall_forall in Hrest. specialize (Hrest _ Hn).
      discriminate Hrest. }
  rewrite (Hclock _ _ _ _ _ _ _ _ Hf1 Hn1), (Hclock _ _ _ _ _ _ _ _ Hf2 Hn2).
  split; [ | intros ->; reflexivity].
  intros H. apply app_inv_head in H. unfold boundaryOf in H.
  apply app_inv_head in H. apply dec_Z_injective. exact H.
Qed.

Lemma uploadImage_boundary_of_clock_witness :
  Content_Type
    (headers (requestOf Sample.uploader (boundaryOf 1700000000000)
                (formData (boundaryOf 1700000000000) (js "a.png")
                          (js "image/png") Sample.png_bytes)))
  <> Content_Type
       (headers (requestOf Sample.uploader (boundaryOf 1700000000001)
                   (formData (boundaryOf 1700000000001) (js "a.png")
                             (js "image/png") Sample.png_bytes)))
  /\ Content_Type
       (headers (requestOf Sample.uploader (boundaryOf 1700000000000)
                   (formData (boundaryOf 1700000000000) (js "a.png")
                             (js "image/png") Sample.png_bytes)))
     = Content_Type
         (headers (requestOf Sample.uploader (boundaryOf 1700000000000)
                     (formData (boundaryOf 1700000000000) (js "b.PNG")
                               (js "image/png") Sample.png_bytes))).
Proof.
  assert (Hfirst :
    In (EvFetch
          (baseUrl Sample.uploader ++ js "/api/v1/media")
          (requestOf Sample.uploader (boundaryOf 1700000000000)
             (formData (boundaryOf 1700000000000) (js "a.png")
                       (js "image/png") Sample.png_bytes))
          (Ok (mkResponse 200 (js "OK") (Ok Sample.body_ok))))
       (events_of (uploadImage Sample.JSON_parse Sample.w_ok Sample.uploader
                     (js "/tmp/playwright-mcp-output/a.png")) initial)).
  { vm_compute. right. right. left. reflexivity. }
  assert (Hfirst_now :
    In (EvNow 1700000000000)
       (events_of (uploadImage Sample.JSON_parse Sample.w_ok Sample.uploader
                     (js "/tmp/playwright-mcp-output/a.png")) initial)).
  { vm_compute. right. left. reflexivity. }
  assert (Hlater :
    In (EvFetch
          (baseUrl Sample.uploader ++ js "/api/v1/media")
          (requestOf Sample.uploader (boundaryOf 1700000000001)
             (formData (boundaryOf 1700000000001) (js "a.png")
                       (js "image/png") Sample.png_bytes))
          (Ok (mkResponse 200 (js "OK") (Ok Sample.body_ok))))
       (events_of (uploadImage Sample.JSON_parse More.w_later Sample.uploader
                     (js "/tmp/playwright-mcp-output/a.png")) initial)).
  { vm_compute. right. right. left. reflexivity. }
  assert (Hlater_now :
    In (EvNow 1700000000001)
       (events_of (uploadImage Sample.JSON_parse More.w_later Sample.uploader
                     (js "/tmp/playwright-mcp-output/a.png")) initial)).
  { vm_compute. right. left. reflexivity. }
  assert (Hother :
    In (EvFetch
          (baseUrl Sample.uploader ++ js "/api/v1/media")
          (requestOf Sample.uploader (boundaryOf 1700000000000)
             (formData (boundaryOf 1700000000000) (js "b.PNG")
                       (js "image/png") Sample.png_bytes))
          (Ok (mkResponse 200 (js "OK") (Ok Sample.body_ok))))
       (events_of (uploadImage Sample.JSON_parse Sample.w_three Sample.uploader
                     (js "/tmp/playwright-mcp-output/sub/b.PNG")) initial)).
  { vm_compute. right. right. left. reflexivity. }
  assert (Hother_now :
    In (EvNow 1700000000000)
       (events_of (uploadImage Sample.JSON_parse Sample.w_three Sample.uploader
                     (js "/tmp/playwright-mcp-output/sub/b.PNG")) initial)).
  { vm_compute. right. left. reflexivity. }
  split.
  - intros Hsame.
    apply (proj1 (uploadImage_boundary_of_clock _ _ _ _ _ _ _ _ _ _ _ _ _ _
                    _ _ _ Hfirst Hfirst_now Hlater Hlater_now)) in Hsame.
    discriminate Hsame.
  - apply (proj2 (uploadImage_boundary_of_clock _ _ _ _ _ _ _ _ _ _ _ _ _ _
                    _ _ _ Hfirst Hfirst_now Hother Hother_now)).
    reflexivity.
Defined.

(** ** The batch *)

Lemma filter_app_nil {A} (p : A -> bool) a b :
  filter p a = [] -> filter p b = [] -> filter p (a ++ b) = [].
Proof. intros Ha Hb. rewrite filter_app, Ha, Hb. reflexivity. Qed.

(** What an upload leaves in the log: the read, then nothing that lists
    a directory, and at most one request. *)
Lemma uploadImage_log JSON_parse w this filePath s :
  exists out evs,
    uploadImage JSON_parse w this filePath s = (out, log_to s evs)
    /\ read_paths evs = [filePath]
    /\ filter is_readdir evs = []
    /\ (length (filter is_fetch evs) <= 1)%nat
    /\ (forall code, out <> Exited code)
    /\ (forall url, out = Ret url -> returned JSON_parse w url).
Proof.
  destruct (uploadImage_effect JSON_parse w this filePath s)
    as (out & evs & Hrun & Hread & Hexit & Hret).
  exists out, evs. split; [exact Hrun | ]. split; [exact Hread | ].
  assert (Hevs : events_of (uploadImage JSON_parse w this filePath) s = evs).
  { unfold events_of. rewrite Hrun. cbn. apply skipn_length_app. }
  assert (Hkind :
    filter is_readdir (events_of (uploadImage JSON_parse w this filePath) s) = []
    /\ (length (filter is_fetch
                  (events_of (uploadImage JSON_parse w this filePath) s))
        <= 1)%nat).
  { clear. uploadImage_cases JSON_parse w s filePath;
      (split; [reflexivity | cbn; lia]). }
  rewrite Hevs in Hkind. destruct Hkind as [Hdir Hfetch].
  repeat split; assumption.
Qed.

Lemma uploadOne_log JSON_parse path_relative w this directoryPath filePath s :
  exists group evs,
    uploadOne JSON_parse path_relative w this directoryPath filePath s
    = (Ret tt, push_to s evs group)
    /\ recorded JSON_parse path_relative w directoryPath filePath group
    /\ read_paths evs = [filePath]
    /\ filter is_readdir evs = []
    /\ (length (filter is_fetch evs) <= 1)%nat.
Proof.
  rewrite uploadOne_run. cbv zeta.
  destruct (uploadImage_log JSON_parse w this filePath s)
    as (out & evs & -> & Hread & Hdir & Hfetch & Hexit & Hret).
  assert (Hline : forall line : event,
             is_console line = true ->
             read_paths (evs ++ [line]) = [filePath]
             /\ filter is_readdir (evs ++ [line]) = []
             /\ (length (filter is_fetch (evs ++ [line])) <= 1)%nat).
  { intros line Hline. rewrite read_paths_app, !filter_app, Hread, Hdir.
    destruct line; try discriminate Hline. cbn. rewrite app_nil_r.
    repeat split. exact Hfetch. }
  destruct out as [url | e | code].
  - destruct (ToString url) as [shown | e] eqn:Eshown.
    + eexists _, (evs ++ _). split.
      * unfold push_to, log_to. cbn. rewrite <- app_assoc. reflexivity.
      * split; [eapply recorded_success; eauto | ].
        apply Hline. reflexivity.
    + eexists _, (evs ++ _). split.
      * unfold push_to, log_to. cbn. rewrite <- app_assoc. reflexivity.
      * split; [eapply recorded_both; eauto | ].
        apply Hline. reflexivity.
  - eexists _, (evs ++ _). split.
    + unfold push_to, log_to. cbn. rewrite <- app_assoc. reflexivity.
    + split; [apply recorded_failure | ].
      apply Hline. reflexivity.
  - exfalso. exact (Hexit code eq_refl).
Qed.

Lemma upload_loop_log JSON_parse path_relative w this directoryPath files :
  forall s,
  exists groups evs,
    for_of files (uploadOne JSON_parse path_relative w this directoryPath) s
    = (Ret tt, push_to s evs (concat groups))
    /\ Forall2 (recorded JSON_parse path_relative w directoryPath) files groups
    /\ read_paths evs = files
    /\ filter is_readdir evs = []
    /\ (length (filter is_fetch evs) <= length files)%nat.
Proof.
  induction files as [ | filePath rest IH]; intros s.
  - exists [], []. split; [ | repeat split; constructor].
    cbn. unfold push_to. rewrite !app_nil_r, state_eta. reflexivity.
  - rewrite for_of_cons. unfold bind.
    destruct (uploadOne_log JSON_parse path_relative w this directoryPath
                filePath s)
      as (group & evs & -> & Hrec & Hread & Hdir & Hfetch).
    destruct (IH (push_to s evs group))
      as (groups & evs' & -> & Hall & Hread' & Hdir' & Hfetch').
    exists (group :: groups), (evs ++ evs'). split; [ | split; [ | split; [ | split]]].
    + unfold push_to. cbn. rewrite <- !app_assoc. reflexivity.
    + constructor; assumption.
    + rewrite read_paths_app, Hread, Hread'. reflexivity.
    + apply filter_app_nil; assumption.
    + rewrite filter_app, length_app. cbn [length]. lia.
Qed.

Lemma scan_events_kind d :
  forall p, filter is_upload_io (scan_events p d) = []
            /\ filter is_fetch (scan_events p d) = [].
Proof.
  induction d as [ | | failure entries IH] using node_rect_nested;
    intros p; try (split; reflexivity).
  destruct failure as [e | ]; [split; reflexivity | ].
  cbn [scan_events].
  change (filter is_upload_io (EvReaddir p None :: ?l))
    with (filter is_upload_io l).
  change (filter is_fetch (EvReaddir p None :: ?l)) with (filter is_fetch l).
  induction IH as [ | [name entry] rest Hentry _ IHrest];
    [split; reflexivity | ].
  cbn [flat_map]. rewrite !filter_app.
  destruct IHrest as [-> ->]. rewrite !app_nil_r.
  destruct entry; try (split; reflexivity).
  apply Hentry.
Qed.

(** The run of the batch runner: the scan, one line, the uploads. *)
Lemma uploadDirectory_log JSON_parse path_relative w this directoryPath s :
  let found := found_under directoryPath (nodeAt w directoryPath) in
  exists groups line evs,
    uploadDirectory JSON_parse path_relative w this directoryPath s
    = (Ret (concat groups),
       mkState (trace s ++ scan_events directoryPath (nodeAt w directoryPath)
                  ++ EvConsole Log [line] :: evs)
               found
               (match found with [] => uploadResults s | _ => concat groups end))
    /\ Forall2 (recorded JSON_parse path_relative w directoryPath) found groups
    /\ read_paths evs = found
    /\ filter is_readdir evs = []
    /\ (length (filter is_fetch evs) <= length found)%nat
    /\ (found = [] ->
        evs = []
        /\ line = js "No PNG files found in directory and subdirectories").
Proof.
  intros found. unfold uploadDirectory, try_catch, bind at 1.
  rewrite findPngFiles_run. fold found.
  clearbody found.
  destruct found as [ | filePath rest] eqn:Efound.
  - exists [], (js "No PNG files found in directory and subdirectories"), [].
    split; [ | repeat split; constructor].
    cbn. unfold bind, console_log, emit, ret. cbn.
    rewrite <- app_assoc. reflexivity.
  - rewrite <- Efound.
    assert (Hlen : (length found =? 0)%nat = false)
      by (rewrite Efound; reflexivity).
    rewrite Hlen.
    unfold bind, console_log, emit, new_uploadResults, get_uploadResults.
    cbn [trace pngFiles uploadResults].
    match goal with
    | |- context [for_of found ?body ?st] =>
        destruct (upload_loop_log JSON_parse path_relative w this
                    directoryPath found st)
          as (groups & evs & -> & Hall & Hread & Hdir & Hfetch)
    end.
    exists groups,
      (js "Found " ++ dec_nat (length found) ++ js " PNG files to upload"),
      evs.
    split; [ | split; [exact Hall | split; [exact Hread | split;
               [exact Hdir | split; [exact Hfetch | ]]]];
               intros H; rewrite Efound in H; discriminate H].
    unfold push_to. cbn. rewrite <- !app_assoc. cbn.
    rewrite Efound. reflexivity.
Qed.

Lemma recorded_bounds JSON_parse path_relative w directoryPath files groups :
  Forall2 (recorded JSON_parse path_relative w directoryPath) files groups ->
  (length files <= length (concat groups) <= 2 * length files)%nat.
Proof.
  induction 1 as [ | filePath group files groups Hrec _ IH]; [cbn; lia | ].
  cbn [concat length]. rewrite length_app.
  destruct Hrec; cbn [length]; lia.
Qed.

(** The network of [Sample.w_three] answers with a 500 or with a body
    whose [url] is a string. *)
Lemma w_three_printable : printable_urls Sample.JSON_parse Sample.w_three.
Proof.
  intros url (history & target & req & response & Hfetch & Hresult).
  cbn [fetch Sample.w_three Sample.world] in Hfetch.
  unfold Sample.second_fails in Hfetch.
  destruct (length (filter is_fetch history) =? 1)%nat;
    injection Hfetch as <-; vm_compute in Hresult.
  - discriminate Hresult.
  - injection Hresult as <-. eexists. reflexivity.
Qed.

(** X7.  The batch runner always returns its report: it neither throws
    nor ends the process.  Whatever fails, it reads every file that
    discovery found, once and in the order found, sends at most one
    request per file, and reports at least one and at most two entries
    per file. *)
Theorem uploadDirectory_attempts_all JSON_parse path_relative w this
    directoryPath s :
  let batch := uploadDirectory JSON_parse path_relative w this directoryPath in
  exists found results s',
    fst (findPngFiles w directoryPath s) = Ret found
    /\ batch s = (Ret results, s')
    /\ read_paths (events_of batch s) = found
    /\ (length (filter is_fetch (events_of batch s)) <= length found)%nat
    /\ (length found <= length results <= 2 * length found)%nat.
Proof.
  cbv zeta.
  destruct (uploadDirectory_log JSON_parse path_relative w this directoryPath s)
    as (groups & line & evs & Hrun & Hrec & Hread & _ & Hfetch & _).
  do 3 eexists. split; [rewrite findPngFiles_run; reflexivity | ].
  split; [exact Hrun | ].
  rewrite (events_of_log _ _ _ _ _ _ Hrun).
  destruct (scan_events_kind (nodeAt w directoryPath) directoryPath)
    as [_ Hscan].
  split; [ | split].
  - rewrite read_paths_app, read_paths_scan. exact Hread.
  - rewrite filter_app, Hscan. exact Hfetch.
  - eapply recorded_bounds. exact Hrec.
Qed.

(** X8.  When the [url] of every answer that the network of the run can
    give has a string conversion, the report has exactly one entry per
    file found, in the order found: for each file a success or a failure
    that carries the basename of the file and its path relative to the
    directory. *)
Theorem uploadDirectory_report JSON_parse path_relative w this
    directoryPath s :
  (forall history target req response url,
      fetch w history target req = Ok response ->
      response_result JSON_parse response = Ok url ->
      exists shown, ToString url = Ok shown) ->
  exists found results s',
    fst (findPngFiles w directoryPath s) = Ret found
    /\ uploadDirectory JSON_parse path_relative w this directoryPath s
       = (Ret results, s')
    /\ length results = length found
    /\ Forall2 (entry_of path_relative directoryPath) found results.
Proof.
  intros Hprint.
  assert (Hurls : printable_urls JSON_parse w).
  { intros url (history & target & req & response & Hfetch & Hresult).
    exact (Hprint _ _ _ _ _ Hfetch Hresult). }
  destruct (uploadDirectory_log JSON_parse path_relative w this directoryPath s)
    as (groups & line & evs & Hrun & Hrec & _).
  do 3 eexists. split; [rewrite findPngFiles_run; reflexivity | ].
  split; [exact Hrun | ].
  pose proof (recorded_single JSON_parse _ _ _ _ _ Hurls Hrec) as Hentries.
  split; [symmetry; eapply Forall2_length; exact Hentries | exact Hentries].
Qed.

Lemma uploadDirectory_report_witness :
  exists found results s',
    fst (findPngFiles Sample.w_three Sample.root initial) = Ret found
    /\ uploadDirectory Sample.JSON_parse Sample.path_relative Sample.w_three
         Sample.uploader Sample.root initial
       = (Ret results, s')
    /\ length results = length found
    /\ Forall2 (entry_of Sample.path_relative Sample.root) found results.
Proof.
  apply (uploadDirectory_report Sample.JSON_parse Sample.path_relative
           Sample.w_three Sample.uploader Sample.root initial).
  intros history target req response url Hfetch Hresult.
  apply w_three_printable. exists history, target, req, response.
  split; assumption.
Defined.

(** X9.  When discovery finds nothing, the batch runner returns the empty
    report after one line saying so: no file is read, the clock is not
    looked at and no request is sent. *)
Theorem uploadDirectory_nothing_found JSON_parse path_relative w this
    directoryPath s :
  let batch := uploadDirectory JSON_parse path_relative w this directoryPath in
  fst (findPngFiles w directoryPath s) = Ret [] ->
  fst (batch s) = Ret []
  /\ events_of batch s
     = events_of (findPngFiles w directoryPath) s
       ++ [EvConsole Log
             [js "No PNG files found in directory and subdirectories"]]
  /\ filter is_upload_io (events_of batch s) = []
  /\ uploadResults (snd (batch s)) = uploadResults s.
Proof.
  cbv zeta. rewrite findPngFiles_run. cbn [fst]. intros [= Hfound].
  destruct (uploadDirectory_log JSON_parse path_relative w this directoryPath s)
    as (groups & line & evs & Hrun & Hrec & _ & _ & _ & Hnone).
  destruct (Hnone Hfound) as [-> ->].
  rewrite Hfound in Hrec. inversion Hrec; subst.
  rewrite (events_of_log _ _ _ _ _ _ Hrun).
  unfold events_of at 1. rewrite findPngFiles_run. cbn [snd trace].
  rewrite skipn_length_app, Hrun, Hfound. cbn [fst snd uploadResults concat].
  destruct (scan_events_kind (nodeAt w directoryPath) directoryPath)
    as [Hscan _].
  repeat split. rewrite filter_app, Hscan. reflexivity.
Qed.

Lemma uploadDirectory_nothing_found_witness :
  fst (uploadDirectory Sample.JSON_parse Sample.path_relative Sample.w_no_png
         Sample.uploader Sample.root initial) = Ret [].
Proof.
  destruct (uploadDirectory_nothing_found Sample.JSON_parse
              Sample.path_relative Sample.w_no_png Sample.uploader
              Sample.root initial) as [Hret _].
  - reflexivity.
  - exact Hret.
Defined.

(** X10.  The batch runner finishes the scan before it starts to upload:
    its log is the log of discovery, which reads no file and sends
    nothing, followed by a log in which no directory is listed. *)
Theorem uploadDirectory_scans_first JSON_parse path_relative w this
    directoryPath s :
  exists uploads,
    events_of (uploadDirectory JSON_parse path_relative w this directoryPath) s
    = events_of (findPngFiles w directoryPath) s ++ uploads
    /\ filter is_upload_io (events_of (findPngFiles w directoryPath) s) = []
    /\ filter is_readdir uploads = [].
Proof.
  destruct (uploadDirectory_log JSON_parse path_relative w this directoryPath s)
    as (groups & line & evs & Hrun & _ & _ & Hdir & _).
  rewrite (events_of_log _ _ _ _ _ _ Hrun).
  unfold events_of. rewrite findPngFiles_run. cbn [snd trace].
  rewrite skipn_length_app.
  exists (EvConsole Log [line] :: evs). split; [reflexivity | ].
  split; [apply scan_events_kind | exact Hdir].
Qed.

(** One round of the loop, by the outcome of its upload. *)
Lemma uploadOne_after_upload JSON_parse path_relative w this directoryPath
    filePath s :
  let fileName := Path.basename filePath in
  let relativePath := path_relative directoryPath filePath in
  let round :=
    uploadOne JSON_parse path_relative w this directoryPath filePath in
  (forall e,
      fst (uploadImage JSON_parse w this filePath s) = Thrown e ->
      uploadResults (snd (round s))
      = uploadResults s ++ [Failure fileName relativePath (message e)]
      /\ In (failure_line relativePath (message e)) (events_of round s))
  /\ (forall url shown,
        fst (uploadImage JSON_parse w this filePath s) = Ret url ->
        ToString url = Ok shown ->
        uploadResults (snd (round s))
        = uploadResults s ++ [Success fileName relativePath url]
        /\ In (success_line relativePath shown) (events_of round s)).
Proof.
  cbv zeta. unfold events_of. rewrite uploadOne_run. cbv zeta.
  destruct (uploadImage_effect JSON_parse w this filePath s)
    as (out & evs & -> & _). cbn [fst].
  split.
  - intros e ->. unfold push_to, log_to. cbn [snd trace uploadResults].
    split; [reflexivity | ].
    rewrite <- app_assoc, skipn_length_app. apply in_or_app. right.
    left. reflexivity.
  - intros url shown -> ->. unfold push_to, log_to.
    cbn [snd trace uploadResults]. split; [reflexivity | ].
    rewrite <- app_assoc, skipn_length_app. apply in_or_app. right.
    left. reflexivity.
Qed.

(** X11.  A response with a status outside 200-299 ends up in the report:
    the round of the loop pushes one failure entry for the file, whose
    message contains the status code and the text of the body, and prints
    the failure line with that message. *)
Theorem uploadOne_reports_status JSON_parse path_relative w this
    directoryPath filePath s url req response errorText :
  In (EvFetch url req (Ok response))
     (events_of (uploadImage JSON_parse w this filePath) s) ->
  ~ (200 <= status response <= 299) ->
  text response = Ok errorText ->
  exists msg,
    uploadResults
      (snd (uploadOne JSON_parse path_relative w this directoryPath filePath s))
    = uploadResults s
      ++ [Failure (Path.basename filePath)
                  (path_relative directoryPath filePath) msg]
    /\ contains (dec_N (status response)) msg
    /\ contains errorText msg
    /\ In (EvConsole ErrorLevel
             [BALLOT_X ++ js " Failed: "
                ++ path_relative directoryPath filePath ++ js " - " ++ msg])
          (events_of (uploadOne JSON_parse path_relative w this directoryPath
                        filePath) s).
Proof.
  intros Hin Hstatus Htext.
  destruct (uploadImage_fetch_event _ _ _ _ _ _ _ _ Hin)
    as (fileBuffer & contentType & ms & _ & _ & _ & _ & Hout).
  unfold response_result in Hout.
  rewrite <- ok_iff_2xx in Hstatus. apply not_true_is_false in Hstatus.
  rewrite Hstatus, Htext in Hout. cbn [negb] in Hout.
  destruct (uploadOne_after_upload JSON_parse path_relative w this
              directoryPath filePath s) as [Hfail _].
  destruct (Hfail _ Hout) as [Hpush Hline]. cbn [message] in Hpush, Hline.
  eexists. split; [exact Hpush | ]. split; [ | split; [ | exact Hline]].
  - eapply contains_here with (pre := js "Upload failed: "). reflexivity.
  - eapply contains_here with
      (pre := js "Upload failed: " ++ dec_N (status response) ++ js " "
              ++ statusText response ++ js " - ") (post := []).
    rewrite <- !app_assoc, app_nil_r. reflexivity.
Qed.

Lemma uploadOne_reports_status_witness :
  exists msg,
    uploadResults
      (snd (uploadOne Sample.JSON_parse Sample.path_relative Sample.w_500
              Sample.uploader Sample.root
              (js "/tmp/playwright-mcp-output/a.png") initial))
    = uploadResults initial
      ++ [Failure (Path.basename (js "/tmp/playwright-mcp-output/a.png"))
                  (Sample.path_relative Sample.root
                     (js "/tmp/playwright-mcp-output/a.png")) msg]
    /\ contains (dec_N 500) msg
    /\ contains (js "boom") msg.
Proof.
  assert (Hin :
    In (EvFetch
          (baseUrl Sample.uploader ++ js "/api/v1/media")
          (requestOf Sample.uploader (boundaryOf 1700000000000)
             (formData (boundaryOf 1700000000000) (js "a.png")
                       (js "image/png") Sample.png_bytes))
          (Ok (mkResponse 500 (js "Internal Server Error") (Ok (js "boom")))))
       (events_of (uploadImage Sample.JSON_parse Sample.w_500 Sample.uploader
                     (js "/tmp/playwright-mcp-output/a.png")) initial)).
  { vm_compute. right. right. left. reflexivity. }
  destruct (uploadOne_reports_status Sample.JSON_parse Sample.path_relative
              _ _ Sample.root _ _ _ _ _ (js "boom") Hin
              ltac:(cbn; lia) eq_refl)
    as (msg & Hpush & Hstatus & Hbody & _).
  exists msg. repeat split; assumption.
Defined.

(** X12.  A 2xx response whose body parses to a value without a [url]
    property (an object without it, a string, a number, an array) counts
    as a success: the upload returns [undefined], and the round of the
    loop pushes a success entry whose URL is [undefined] and prints it as
    such.  A body that parses to [null] makes the upload fail. *)
Theorem uploadOne_without_url JSON_parse path_relative w this directoryPath
    filePath s url req response t result :
  In (EvFetch url req (Ok response))
     (events_of (uploadImage JSON_parse w this filePath) s) ->
  200 <= status response <= 299 ->
  text response = Ok t ->
  JSON_parse t = Ok result ->
  (result = JNull ->
   exists msg,
     uploadResults
       (snd (uploadOne JSON_parse path_relative w this directoryPath
               filePath s))
     = uploadResults s
       ++ [Failure (Path.basename filePath)
                   (path_relative directoryPath filePath) msg])
  /\ (get_url result = Ok JUndefined ->
      fst (uploadImage JSON_parse w this filePath s) = Ret JUndefined
      /\ uploadResults
           (snd (uploadOne JSON_parse path_relative w this directoryPath
                   filePath s))
         = uploadResults s
           ++ [Success (Path.basename filePath)
                       (path_relative directoryPath filePath) JUndefined]
      /\ In (EvConsole Log
               [CHECK_MARK ++ js " Uploaded: "
                  ++ path_relative directoryPath filePath ++ js " -> "
                  ++ js "undefined"])
            (events_of (uploadOne JSON_parse path_relative w this
                          directoryPath filePath) s)).
Proof.
  intros Hin Hstatus Htext Hparse.
  destruct (uploadImage_fetch_event _ _ _ _ _ _ _ _ Hin)
    as (fileBuffer & contentType & ms & _ & _ & _ & _ & Hout).
  unfold response_result in Hout. apply ok_iff_2xx in Hstatus.
  rewrite Hstatus, Htext, Hparse in Hout. cbn [negb] in Hout.
  destruct (uploadOne_after_upload JSON_parse path_relative w this
              directoryPath filePath s) as [Hfail Hsucc].
  split.
  - intros ->. eexists. apply (Hfail _ Hout).
  - intros Hurl. rewrite Hurl in Hout. split; [exact Hout | ].
    apply (Hsucc JUndefined (js "undefined") Hout). reflexivity.
Qed.

Example get_url_without_property :
  get_url (JObj [(js "id", JStr (js "x"))]) = Ok JUndefined
  /\ get_url (JStr (js "ok")) = Ok JUndefined
  /\ get_url (JArr []) = Ok JUndefined.
Proof. repeat split; reflexivity. Qed.

Lemma uploadOne_without_url_witness :
  fst (uploadImage More.JSON_parse More.w_empty_object Sample.uploader
         (js "/tmp/playwright-mcp-output/a.png") initial)
  = Ret JUndefined
  /\ uploadResults
       (snd (uploadOne More.JSON_parse Sample.path_relative
               More.w_empty_object Sample.uploader Sample.root
               (js "/tmp/playwright-mcp-output/a.png") initial))
     = [Success (js "a.png") (js "a.png") JUndefined].
Proof.
  assert (Hin :
    In (EvFetch
          (baseUrl Sample.uploader ++ js "/api/v1/media")
          (requestOf Sample.uploader (boundaryOf 1700000000000)
             (formData (boundaryOf 1700000000000) (js "a.png")
                       (js "image/png") Sample.png_bytes))
          (Ok (mkResponse 200 (js "OK") (Ok More.body_empty_object))))
       (events_of (uploadImage More.JSON_parse More.w_empty_object
                     Sample.uploader
                     (js "/tmp/playwright-mcp-output/a.png")) initial)).
  { vm_compute. right. right. left. reflexivity. }
  destruct (uploadOne_without_url More.JSON_parse Sample.path_relative
              _ _ Sample.root _ _ _ _ _ More.body_empty_object (JObj [])
              Hin ltac:(cbn; lia) eq_refl eq_refl)
    as [_ Hundefined].
  destruct (Hundefined eq_refl) as (Hret & Hpush & _).
  split; [exact Hret | ]. rewrite Hpush. reflexivity.
Defined.

(** ** Discovery *)

(** X13.  Every call of [findPngFiles] starts from an empty list: what it
    returns does not depend on the state it is called in, and a second
    call right after a first one returns the same list, not the list
    twice. *)
Theorem findPngFiles_fresh_list w directoryPath s :
  fst (findPngFiles w directoryPath s) = fst (findPngFiles w directoryPath initial)
  /\ fst ((findPngFiles w directoryPath ;; findPngFiles w directoryPath) s)
     = fst (findPngFiles w directoryPath s).
Proof.
  unfold bind. rewrite !findPngFiles_run. cbn [fst].
  rewrite ?findPngFiles_run. split; reflexivity.
Qed.

Lemma scan_events_listing d :
  forall p,
    Forall (fun e => is_readdir e || is_warning e = true) (scan_events p d)
    /\ length (filter is_warning (scan_events p d))
       = length (filter is_failed_readdir (scan_events p d)).
Proof.
  induction d as [ | | failure entries IH] using node_rect_nested;
    intros p; try (split; [repeat constructor | reflexivity]).
  destruct failure as [e | ]; [split; [repeat constructor | reflexivity] | ].
  cbn [scan_events].
  assert (Hrest :
    Forall (fun e => is_readdir e || is_warning e = true)
      (flat_map (fun dirent : jsstring * node =>
                   let '(name, entry) := dirent in
                   match entry with
                   | Dir _ _ => scan_events (Path.join [p; name]) entry
                   | _ => []
                   end) entries)
    /\ length (filter is_warning
                 (flat_map (fun dirent : jsstring * node =>
                   let '(name, entry) := dirent in
                   match entry with
                   | Dir _ _ => scan_events (Path.join [p; name]) entry
                   | _ => []
                   end) entries))
       = length (filter is_failed_readdir
                 (flat_map (fun dirent : jsstring * node =>
                   let '(name, entry) := dirent in
                   match entry with
                   | Dir _ _ => scan_events (Path.join [p; name]) entry
                   | _ => []
                   end) entries))).
  { induction IH as [ | [name entry] rest Hentry _ IHrest];
      [split; [constructor | reflexivity] | ].
    cbn [flat_map]. rewrite !filter_app, !length_app.
    destruct IHrest as [Hall Hcount]. rewrite Hcount.
    destruct entry as [ | | f es];
      try (split; [exact Hall | reflexivity]).
    destruct (Hentry (Path.join [p; name])) as [Hall' Hcount'].
    cbn [snd] in Hall', Hcount'.
    split; [apply Forall_app; split; assumption | ].
    rewrite Hcount'. reflexivity. }
  destruct Hrest as [Hall Hcount].
  split; [constructor; [reflexivity | exact Hall] | exact Hcount].
Qed.

(** X14.  Discovery only lists directories: every event of its log is a
    [readdir] or a warning, the first is the listing of the directory it
    was given, there is one warning per listing that failed, and the
    report of a batch is left as it is. *)
Theorem findPngFiles_only_lists w directoryPath s :
  let evs := events_of (findPngFiles w directoryPath) s in
  Forall (fun e => is_readdir e || is_warning e = true) evs
  /\ (exists failure rest, evs = EvReaddir directoryPath failure :: rest)
  /\ length (filter is_warning evs) = length (filter is_failed_readdir evs)
  /\ uploadResults (snd (findPngFiles w directoryPath s)) = uploadResults s.
Proof.
  cbv zeta. unfold events_of. rewrite findPngFiles_run.
  cbn [snd trace uploadResults]. rewrite skipn_length_app.
  destruct (scan_events_listing (nodeAt w directoryPath) directoryPath)
    as [Hall Hcount].
  split; [exact Hall | ]. split; [ | split; [exact Hcount | reflexivity]].
  destruct (nodeAt w directoryPath) as [ | | [e | ] entries];
    do 2 eexists; reflexivity.
Qed.

(** X15.  A directory path that leads nowhere, or to something that is
    not a directory, is not an error for discovery: it returns the empty
    list after one failed listing and one call of [console.warn] with
    the text that names the path and the message of the error of that
    listing. *)
Theorem findPngFiles_bad_root w directoryPath s :
  lookup w directoryPath = None
  \/ lookup w directoryPath = Some File
  \/ lookup w directoryPath = Some Other ->
  fst (findPngFiles w directoryPath s) = Ret []
  /\ exists e,
       events_of (findPngFiles w directoryPath) s
       = [EvReaddir directoryPath (Some e);
          EvConsole Warn
            [js "Could not scan directory " ++ directoryPath ++ js ":";
             message e]].
Proof.
  intros Hroot. unfold events_of. rewrite findPngFiles_run.
  cbn [fst snd trace]. rewrite skipn_length_app. unfold nodeAt.
  destruct Hroot as [-> | [-> | ->]]; (split; [reflexivity | ]);
    eexists; reflexivity.
Qed.

Lemma findPngFiles_bad_root_witness :
  fst (findPngFiles Sample.w_no_directory Sample.root initial) = Ret []
  /\ exists e,
       events_of (findPngFiles Sample.w_no_directory Sample.root) initial
       = [EvReaddir (js "/tmp/playwright-mcp-output") (Some e);
          EvConsole Warn
            [js "Could not scan directory /tmp/playwright-mcp-output:";
             message e]].
Proof.
  apply (findPngFiles_bad_root Sample.w_no_directory Sample.root initial).
  left. reflexivity.
Defined.

(** X16.  In a tree with entry names as [readdir] gives them, the
    basename of every path that discovery returns is the name of a
    regular file of the tree and ends in [.png], whatever the case of its
    letters: the file name of a report entry is the name the file has in
    its directory. *)
Theorem findPngFiles_basenames w directoryPath d s found :
  lookup w directoryPath = Some d ->
  plain_names d = true ->
  fst (findPngFiles w directoryPath s) = Ret found ->
  Forall (fun p =>
            is_png_name (Path.basename p) = true
            /\ In (p, Path.basename p) (files_under directoryPath d))
         found.
Proof.
  intros Hd Hplain. rewrite findPngFiles_run, (nodeAt_found _ _ _ Hd).
  cbn [fst]. intros [= <-]. apply Forall_forall. intros p Hin.
  apply found_under_sound in Hin.
  apply in_map_iff in Hin as [[p' name] [Hp Hpng]]. cbn [fst] in Hp. subst p'.
  unfold png_files_under in Hpng. apply filter_In in Hpng as [Hfile Hname].
  cbn [snd] in Hname.
  rewrite (files_under_basename d _ _ _ Hplain Hfile).
  split; assumption.
Qed.

Lemma findPngFiles_basenames_witness :
  Forall (fun p =>
            is_png_name (Path.basename p) = true
            /\ In (p, Path.basename p)
                  (files_under Sample.root Sample.three_png))
         [js "/tmp/playwright-mcp-output/a.png";
          js "/tmp/playwright-mcp-output/sub/b.PNG";
          js "/tmp/playwright-mcp-output/c.Png"].
Proof.
  apply (findPngFiles_basenames Sample.w_three Sample.root Sample.three_png
           initial); reflexivity.
Defined.

Lemma lower_unit_dot c : lower_unit c = DOT <-> c = DOT.
Proof.
  unfold lower_unit, DOT.
  destruct ((65 <=? c) && (c <=? 90)) eqn:E.
  - apply andb_true_iff in E as [H1 H2].
    apply N.leb_le in H1. apply N.leb_le in H2. lia.
  - reflexivity.
Qed.

(** A name taken by the scan is something followed by a dot and the
    letters p, n, g in either case. *)
Lemma is_png_name_shape name :
  is_png_name name = true ->
  exists stem c2 c3 c4,
    name = stem ++ [DOT; c2; c3; c4]
    /\ lower_unit c2 = 112 /\ lower_unit c3 = 110 /\ lower_unit c4 = 103.
Proof.
  unfold is_png_name, endsWith, toLowerCase. intros H.
  apply andb_true_iff in H as [Hlen Hsuffix].
  change (length (js ".png")) with 4%nat in *.
  rewrite length_map in *. apply Nat.leb_le in Hlen.
  apply str_eqb_eq in Hsuffix.
  change (js ".png") with [46; 112; 110; 103] in Hsuffix.
  rewrite <- (firstn_skipn (length name - 4) name).
  rewrite <- (firstn_skipn (length name - 4) name) in Hsuffix at 2.
  rewrite map_app, skipn_app, length_map, length_firstn in Hsuffix.
  replace (Nat.min (length name - 4) (length name)) with (length name - 4)%nat
    in Hsuffix by lia.
  rewrite Nat.sub_diag in Hsuffix. cbn [skipn] in Hsuffix.
  rewrite skipn_all2 in Hsuffix
    by (rewrite length_map, length_firstn; lia).
  cbn [app] in Hsuffix.
  destruct (skipn (length name - 4) name) as [ | c1 [ | c2 [ | c3 [ | c4 [ | c5 l]]]]];
    try discriminate Hsuffix.
  cbn [map] in Hsuffix. injection Hsuffix as H1 H2 H3 H4.
  apply (proj1 (lower_unit_dot c1)) in H1. subst c1.
  exists (firstn (length name - 4) name), c2, c3, c4.
  repeat split; assumption.
Qed.

Lemma not_dot c x : lower_unit c = x -> x <> DOT -> (c =? DOT) = false.
Proof.
  intros Hc Hx. apply N.eqb_neq. intros ->.
  apply Hx. rewrite <- Hc. reflexivity.
Qed.

Lemma extname_of_three_letters p c2 c3 c4 before :
  Path.last_component_rev p = c4 :: c3 :: c2 :: DOT :: before ->
  (c2 =? DOT) = false -> (c3 =? DOT) = false -> (c4 =? DOT) = false ->
  Path.extname p
  = match before with
    | [] => []
    | _ :: _ => [DOT; c2; c3; c4]
    end.
Proof.
  intros Hrc H2 H3 H4. unfold Path.extname. rewrite Hrc.
  cbn [Path.takeWhile Path.dropWhile].
  rewrite H4, H3, H2, N.eqb_refl. cbn [negb].
  destruct before as [ | b before']; [reflexivity | ].
  replace (str_eqb [c4; c3; c2] []) with false by reflexivity.
  rewrite andb_false_r. reflexivity.
Qed.

(** The extension of a path whose last component is a PNG name. *)
Lemma extname_of_png_name p :
  is_png_name (Path.basename p) = true ->
  (toLowerCase (Path.basename p) <> js ".png" ->
   toLowerCase (Path.extname p) = js ".png")
  /\ (toLowerCase (Path.basename p) = js ".png" -> Path.extname p = []).
Proof.
  intros Hpng.
  destruct (is_png_name_shape _ Hpng)
    as (stem & c2 & c3 & c4 & Hname & H2 & H3 & H4).
  assert (Hrc : Path.last_component_rev p = c4 :: c3 :: c2 :: DOT :: rev stem).
  { rewrite <- (rev_involutive (Path.last_component_rev p)).
    change (rev (Path.last_component_rev p)) with (Path.basename p).
    rewrite Hname, rev_app_distr. reflexivity. }
  assert (Hd2 := not_dot _ _ H2 ltac:(discriminate)).
  assert (Hd3 := not_dot _ _ H3 ltac:(discriminate)).
  assert (Hd4 := not_dot _ _ H4 ltac:(discriminate)).
  rewrite (extname_of_three_letters p c2 c3 c4 (rev stem) Hrc Hd2 Hd3 Hd4).
  assert (Hlow : toLowerCase [DOT; c2; c3; c4] = js ".png").
  { unfold toLowerCase. cbn [map]. rewrite H2, H3, H4. reflexivity. }
  destruct stem as [ | c stem'].
  - split; [ | reflexivity].
    intros Hne. exfalso. apply Hne. rewrite Hname. exact Hlow.
  - destruct (rev (c :: stem')) as [ | r rs] eqn:Erev.
    { apply (f_equal (@rev N)) in Erev. rewrite rev_involutive in Erev.
      discriminate Erev. }
    split; [intros _; exact Hlow | ].
    intros Hshort. apply (f_equal (@length N)) in Hshort.
    rewrite Hname in Hshort. unfold toLowerCase in Hshort.
    rewrite length_map, length_app in Hshort.
    change (length (js ".png")) with 4%nat in Hshort.
    cbn [length] in Hshort. lia.
Qed.

(** X17.  Discovery and upload fit together except for one name.  For a
    path that discovery returns (entry names being as [readdir] gives
    them) the upload resolves the content type [image/png], unless the
    whole name of the file is [.png] in some case: then [path.extname] is
    empty and the upload of that file fails as an unsupported type. *)
Theorem found_files_content_type w directoryPath d s found p :
  lookup w directoryPath = Some d ->
  plain_names d = true ->
  fst (findPngFiles w directoryPath s) = Ret found ->
  In p found ->
  (toLowerCase (Path.basename p) <> js ".png" ->
   contentTypeOf (toLowerCase (Path.extname p)) = Ok (js "image/png"))
  /\ (toLowerCase (Path.basename p) = js ".png" ->
      contentTypeOf (toLowerCase (Path.extname p))
      = Err (Error (js "Unsupported file type: "))).
Proof.
  intros Hd Hplain. rewrite findPngFiles_run, (nodeAt_found _ _ _ Hd).
  cbn [fst]. intros [= <-] Hin.
  apply found_under_sound in Hin.
  apply in_map_iff in Hin as [[p' name] [Hp Hpng]]. cbn [fst] in Hp. subst p'.
  unfold png_files_under in Hpng. apply filter_In in Hpng as [Hfile Hname].
  cbn [snd] in Hname.
  rewrite <- (files_under_basename d _ _ _ Hplain Hfile) in Hname.
  destruct (extname_of_png_name p Hname) as [Hlong Hshort].
  split.
  - intros Hne. rewrite (Hlong Hne). reflexivity.
  - intros He. rewrite (Hshort He). reflexivity.
Qed.

Lemma found_files_content_type_witness :
  contentTypeOf
    (toLowerCase (Path.extname (js "/tmp/playwright-mcp-output/sub/b.PNG")))
  = Ok (js "image/png").
Proof.
  destruct (found_files_content_type Sample.w_three Sample.root
              Sample.three_png initial
              [js "/tmp/playwright-mcp-output/a.png";
               js "/tmp/playwright-mcp-output/sub/b.PNG";
               js "/tmp/playwright-mcp-output/c.Png"]
              (js "/tmp/playwright-mcp-output/sub/b.PNG")
              eq_refl eq_refl eq_refl) as [Hpng _].
  - right. left. reflexivity.
  - apply Hpng. vm_compute. discriminate.
Defined.

(** ** The entry point *)

(** What the entry point does once the batch has returned its report. *)
Lemma main_after_batch JSON_stringify w batch results s1 :
  credentials w = true ->
  lookup w screenshotsPath <> None ->
  batch (the_uploader w) screenshotsPath before_batch = (Ret results, s1) ->
  main_with JSON_stringify w batch initial
  = ((if forallb success results then Ret tt else Exited 1%Z),
     mkState
       (trace s1 ++ summary_lines results
          ++ (if github_actions w
              then [json_block_opening;
                    EvConsole Log
                      [JSON_stringify (filter success results)
                         (filter (fun r => negb (success r)) results)
                         (length results)];
                    json_block_closing]
              else [])
          ++ (if forallb success results then [] else [EvExit 1]))
       (pngFiles s1) (uploadResults s1)).
Proof.
  unfold credentials, main_with, the_uploader, github_actions.
  intros H Hdir Hbatch.
  apply negb_true_iff in H. unfold bind at 1. rewrite H.
  unfold ret at 1. unfold try_catch at 1. unfold bind at 1.
  unfold try_catch at 1. unfold fs_access.
  destruct (lookup w screenshotsPath) as [d | ]; [ | contradiction].
  unfold emit at 1. cbn [initial trace pngFiles uploadResults app].
  unfold bind at 1. unfold console_log at 1, emit at 1.
  cbn [trace pngFiles uploadResults app].
  unfold bind at 1. fold before_batch. rewrite Hbatch.
  unfold bind, console_log, emit, process_exit, ret, summary_lines,
    json_block_opening, json_block_closing.
  cbn [trace pngFiles uploadResults].
  rewrite failed_count.
  destruct (env w (js "GITHUB_ACTIONS")) as [v | ];
    [destruct (str_eqb v (js "true")) | ];
    destruct (forallb success results);
    cbn [negb trace pngFiles uploadResults]; rewrite <- ?app_assoc;
    cbn [app]; rewrite ?app_nil_r; reflexivity.
Qed.

Lemma success_partition (results : list UploadResult) :
  (length (filter success results)
   + length (filter (fun r => negb (success r)) results)
   = length results)%nat.
Proof.
  induction results as [ | r rest IH]; [reflexivity | ].
  cbn [filter]. destruct (success r); cbn [negb length]; lia.
Qed.

Lemma github_actions_iff w :
  github_actions w = true <-> env w (js "GITHUB_ACTIONS") = Some (js "true").
Proof.
  unfold github_actions.
  destruct (env w (js "GITHUB_ACTIONS")) as [v | ].
  - rewrite str_eqb_eq. split; [intros -> | intros [= ->]]; reflexivity.
  - split; discriminate.
Qed.

(** X18.  After the batch has returned its report, the entry point
    prints the three lines of the summary, whose two counts add up to the
    number of entries; then, exactly when [GITHUB_ACTIONS] is the string
    [true], the opening marker, the JSON text of the successes, the
    failures and the number of entries, and the closing marker, in this
    order; and it does nothing more but exit with 1 if an entry is a
    failure. *)
Theorem main_summary JSON_stringify w batch results s1 :
  credentials w = true ->
  lookup w screenshotsPath <> None ->
  batch (the_uploader w) screenshotsPath before_batch = (Ret results, s1) ->
  let printed :=
    skipn (length (trace s1))
          (snd (run (main_with JSON_stringify w batch))) in
  let successful := filter success results in
  let failed := filter (fun r => negb (success r)) results in
  (length successful + length failed = length results)%nat
  /\ exists block,
       printed
       = [EvConsole Log [LF ++ js "Upload Summary:"];
          EvConsole Log [CHECK_MARK ++ js " Successful: "
                           ++ dec_nat (length successful)];
          EvConsole Log [BALLOT_X ++ js " Failed: "
                           ++ dec_nat (length failed)]]
         ++ block
         ++ (match failed with [] => [] | _ :: _ => [EvExit 1] end)
       /\ (env w (js "GITHUB_ACTIONS") = Some (js "true") ->
           block
           = [EvConsole Log [LF ++ js "--- UPLOAD_RESULTS_JSON ---"];
              EvConsole Log [JSON_stringify successful failed
                               (length results)];
              EvConsole Log [js "--- END_UPLOAD_RESULTS_JSON ---"]])
       /\ (env w (js "GITHUB_ACTIONS") <> Some (js "true") -> block = []).
Proof.
  intros Hcred Hdir Hbatch. cbv zeta. unfold run.
  rewrite (main_after_batch _ _ _ _ _ Hcred Hdir Hbatch).
  assert (Htrace :
    forall o : outcome unit, forall st : state,
      snd (match (o, st) with
           | (Ret _, s) => (0%Z, trace s)
           | (Thrown _, s) => (1%Z, trace s)
           | (Exited code, s) => (code, trace s)
           end) = trace st)
    by (intros [ | | ] st; reflexivity).
  rewrite Htrace. cbn [trace]. rewrite skipn_length_app.
  split; [apply success_partition | ].
  assert (Hexit :
    (if forallb success results then [] else [EvExit 1])
    = match filter (fun r => negb (success r)) results with
      | [] => []
      | _ :: _ => [EvExit 1]
      end).
  { clear. induction results as [ | r rest IH]; [reflexivity | ].
    cbn [forallb filter]. destruct (success r); cbn [negb andb];
      [exact IH | reflexivity]. }
  rewrite Hexit. unfold summary_lines, json_block_opening, json_block_closing.
  pose proof (github_actions_iff w) as Hci.
  destruct (github_actions w).
  - eexists. split; [reflexivity | ]. split; [reflexivity | ].
    intros Hno. exfalso. apply Hno, Hci. reflexivity.
  - exists []. split; [reflexivity | ]. split; [ | reflexivity].
    intros Hyes. apply Hci in Hyes. discriminate Hyes.
Qed.

Lemma main_summary_witness :
  exists s1,
    uploadDirectory Sample.JSON_parse Sample.path_relative More.w_ci
      (the_uploader More.w_ci) screenshotsPath before_batch
    = (Ret [Success (js "a.png") (js "a.png") (JStr (js "https://x/y.png"));
            Failure (js "b.PNG") (js "sub/b.PNG")
              (js "Upload failed: 500 Internal Server Error - boom");
            Success (js "c.Png") (js "c.Png") (JStr (js "https://x/y.png"))],
       s1)
    /\ skipn (length (trace s1))
          (snd (run (main_with Sample.JSON_stringify More.w_ci
                       (uploadDirectory Sample.JSON_parse Sample.path_relative
                                        More.w_ci))))
       = [EvConsole Log [LF ++ js "Upload Summary:"];
          EvConsole Log [CHECK_MARK ++ js " Successful: 2"];
          EvConsole Log [BALLOT_X ++ js " Failed: 1"];
          EvConsole Log [LF ++ js "--- UPLOAD_RESULTS_JSON ---"];
          EvConsole Log [js "{}"];
          EvConsole Log [js "--- END_UPLOAD_RESULTS_JSON ---"];
          EvExit 1].
Proof.
  eexists. split; [vm_compute; reflexivity | ].
  match goal with
  | |- skipn (length (trace ?s1)) _ = _ =>
      destruct (main_summary Sample.JSON_stringify More.w_ci
                  (uploadDirectory Sample.JSON_parse Sample.path_relative
                                   More.w_ci)
                  [Success (js "a.png") (js "a.png")
                           (JStr (js "https://x/y.png"));
                   Failure (js "b.PNG") (js "sub/b.PNG")
                     (js "Upload failed: 500 Internal Server Error - boom");
                   Success (js "c.Png") (js "c.Png")
                           (JStr (js "https://x/y.png"))]
                  s1)
        as (_ & block & Hprinted & Hblock & _)
  end.
  - reflexivity.
  - vm_compute. discriminate.
  - vm_compute. reflexivity.
  - rewrite Hprinted, (Hblock eq_refl). reflexivity.
Defined.

(** The outcome of the script: what [main] ends with. *)
Lemma main_outcome JSON_parse path_relative JSON_stringify w :
  fst (main JSON_parse path_relative JSON_stringify w initial)
  = if negb (credentials w) then Exited 1%Z
    else match lookup w screenshotsPath with
         | None => Exited 0%Z
         | Some _ =>
             match fst (uploadDirectory JSON_parse path_relative w
                          (the_uploader w) screenshotsPath before_batch) with
             | Ret results =>
                 if forallb success results then Ret tt else Exited 1%Z
             | Thrown _ => Exited 1%Z
             | Exited code => Exited code
             end
         end.
Proof.
  destruct (credentials w) eqn:Hcred; cbn [negb].
  2: { unfold credentials in Hcred. apply negb_false_iff in Hcred.
       unfold main, main_with. unfold bind at 1. rewrite Hcred.
       reflexivity. }
  destruct (lookup w screenshotsPath) as [d | ] eqn:Hdir.
  2: { unfold credentials in Hcred. apply negb_true_iff in Hcred.
       unfold main, main_with. unfold bind at 1. rewrite Hcred.
       unfold ret at 1. unfold try_catch at 1. unfold bind at 1.
       unfold try_catch at 1. unfold fs_access. rewrite Hdir.
       reflexivity. }
  destruct (uploadDirectory JSON_parse path_relative w (the_uploader w)
              screenshotsPath before_batch) as [out s1] eqn:Hbatch.
  destruct (uploadDirectory_run JSON_parse path_relative w (the_uploader w)
              screenshotsPath before_batch) as (groups & line & evs & Hrun & _).
  rewrite Hrun in Hbatch. injection Hbatch as <- <-. cbn [fst].
  unfold main.
  rewrite (main_after_batch JSON_stringify w _ _ _ Hcred
             ltac:(rewrite Hdir; discriminate) Hrun).
  reflexivity.
Qed.

(** X19.  The promise of the script's [main] never rejects: with its own
    batch runner no exception reaches the top level, so the script ends
    by returning or by [process.exit] with 0 or 1.  It exits with 0
    exactly when the credentials are there and the directory is absent,
    and returns exactly when the credentials and the directory are there
    and no entry of the report is a failure. *)
Theorem main_never_rejects JSON_parse path_relative JSON_stringify w :
  let outcome :=
    fst (main JSON_parse path_relative JSON_stringify w initial) in
  let report :=
    fst (uploadDirectory JSON_parse path_relative w (the_uploader w)
           screenshotsPath before_batch) in
  (forall e, outcome <> Thrown e)
  /\ (outcome = Ret tt \/ outcome = Exited 0%Z \/ outcome = Exited 1%Z)
  /\ (outcome = Exited 0%Z
      <-> credentials w = true /\ lookup w screenshotsPath = None)
  /\ (outcome = Ret tt
      <-> credentials w = true /\ lookup w screenshotsPath <> None
          /\ exists results,
               report = Ret results /\ forallb success results = true).
Proof.
  cbv zeta. rewrite main_outcome.
  destruct (uploadDirectory_run JSON_parse path_relative w (the_uploader w)
              screenshotsPath before_batch) as (groups & line & evs & -> & _).
  cbn [fst].
  destruct (credentials w); cbn [negb].
  2: { split; [discriminate | ]. split; [right; right; reflexivity | ].
       split; (split; [discriminate | intros [H _]; discriminate H]). }
  destruct (lookup w screenshotsPath) as [d | ].
  2: { split; [discriminate | ]. split; [right; left; reflexivity | ].
       split; [split; [intros _; split; reflexivity | reflexivity] | ].
       split; [discriminate | intros (_ & H & _); contradiction H; reflexivity]. }
  destruct (forallb success (concat groups)) eqn:Hall.
  - split; [discriminate | ]. split; [left; reflexivity | ].
    split; [split; [discriminate | intros [_ H]; discriminate H] | ].
    split; [intros _ | reflexivity].
    split; [reflexivity | ]. split; [discriminate | ].
    exists (concat groups). split; [reflexivity | exact Hall].
  - split; [discriminate | ]. split; [right; right; reflexivity | ].
    split; [split; [discriminate | intros [_ H]; discriminate H] | ].
    split; [discriminate | ].
    intros (_ & _ & results & [= <-] & Hyes). congruence.
Qed.

(** X20.  With the credentials there and the path there but without a
    matching file below it (an empty directory, a directory of other
    files, a path that is not a directory), the script has nothing to
    upload: it prints the summary with zero successes, reads no file,
    sends no request and ends with exit code 0. *)
Theorem main_nothing_to_upload JSON_parse path_relative JSON_stringify w :
  credentials w = true ->
  lookup w screenshotsPath <> None ->
  fst (findPngFiles w screenshotsPath before_batch) = Ret [] ->
  let ran := run (main JSON_parse path_relative JSON_stringify w) in
  fst ran = 0%Z
  /\ filter is_upload_io (snd ran) = []
  /\ In (EvConsole Log
           [js "No PNG files found in directory and subdirectories"])
        (snd ran)
  /\ In (EvConsole Log [CHECK_MARK ++ js " Successful: " ++ dec_nat 0])
        (snd ran).
Proof.
  intros Hcred Hdir. rewrite findPngFiles_run. cbn [fst]. intros [= Hfound].
  destruct (uploadDirectory_log JSON_parse path_relative w (the_uploader w)
              screenshotsPath before_batch)
    as (groups & line & evs & Hrun & Hrec & _ & _ & _ & Hnone).
  destruct (Hnone Hfound) as [-> ->].
  rewrite Hfound in Hrec. inversion Hrec; subst. cbn [concat] in Hrun.
  cbv zeta. unfold run, main.
  rewrite (main_after_batch JSON_stringify w _ _ _ Hcred Hdir Hrun).
  cbn [forallb fst snd trace app before_batch]. rewrite app_nil_r.
  destruct (scan_events_kind (nodeAt w screenshotsPath) screenshotsPath)
    as [Hscan _].
  split; [reflexivity | ]. split; [ | split].
  - cbn [filter is_upload_io]. rewrite !filter_app, Hscan.
    destruct (github_actions w); reflexivity.
  - right. right. apply in_or_app. left. apply in_or_app. right.
    left. reflexivity.
  - right. right. apply in_or_app. right. apply in_or_app. left.
    right. left. reflexivity.
Qed.

Lemma main_nothing_to_upload_witness :
  fst (run (main Sample.JSON_parse Sample.path_relative Sample.JSON_stringify
              More.w_file_root)) = 0%Z.
Proof.
  destruct (main_nothing_to_upload Sample.JSON_parse Sample.path_relative
              Sample.JSON_stringify More.w_file_root) as [Hcode _].
  - reflexivity.
  - vm_compute. discriminate.
  - reflexivity.
  - exact Hcode.
Defined.
